(** * AstroLearn: orbital clock and camera animation

    A shallow embedding of [src/planets.js] (class [PlanetSystem]) and
    [src/controls.js] (class [Controls]), with the part of [src/main.js]
    that loads the bodies.  Line numbers are those of
    [src/unnamed/part_002], which holds [controls.js] followed by
    [planets.js], of [src/unnamed/part_004] for [main.js], and of
    [src/src/ui.js].

    JavaScript numbers are IEEE-754 doubles.  They are idealised here as
    the real numbers extended with [+Infinity], [-Infinity] and [NaN]:
    finite arithmetic is exact (no rounding, no overflow) and zero carries
    no sign, while division by zero and the arithmetic of the non-finite
    values follow IEEE-754.  "Within floating tolerance" and "rounding
    aside" in a statement therefore read as exact equality of reals: an
    equation between two computed values that is marked so holds of the
    doubles up to their rounding only, and the statements say where that
    is the case.

    three.js is outside the repository.  What the code reads of it is in
    the model: the fields of a mesh, [Vector3.lerpVectors], and
    [OrbitControls.update()], whose effect on the camera is taken as a
    parameter. *)

From Stdlib Require Import Reals Lra String List Bool Arith Lia.
Import ListNotations.
Open Scope string_scope.
Open Scope list_scope.
Open Scope R_scope.

(** ** JavaScript numbers *)

Module JS.

Inductive number : Type :=
| Fin (x : R)
| PInf
| NInf
| NaN.

Definition neg (a : number) : number :=
  match a with
  | Fin x => Fin (- x)
  | PInf => NInf
  | NInf => PInf
  | NaN => NaN
  end.

Definition add (a b : number) : number :=
  match a, b with
  | NaN, _ | _, NaN => NaN
  | Fin x, Fin y => Fin (x + y)
  | PInf, NInf | NInf, PInf => NaN
  | PInf, _ | _, PInf => PInf
  | NInf, _ | _, NInf => NInf
  end.

Definition sub (a b : number) : number := add a (neg b).

(** An infinity of sign [pos] times, or a numerator [x] over zero:
    the sign of [x] decides, and zero gives [NaN]. *)
Definition signed_inf (pos : bool) (x : R) : number :=
  if Rlt_dec 0 x then (if pos then PInf else NInf)
  else if Rlt_dec x 0 then (if pos then NInf else PInf)
  else NaN.

Definition mul (a b : number) : number :=
  match a, b with
  | NaN, _ | _, NaN => NaN
  | Fin x, Fin y => Fin (x * y)
  | PInf, Fin y | Fin y, PInf => signed_inf true y
  | NInf, Fin y | Fin y, NInf => signed_inf false y
  | PInf, PInf | NInf, NInf => PInf
  | PInf, NInf | NInf, PInf => NInf
  end.

(** [a / b].  Zero carries no sign here, so a quotient by zero is the
    quotient by [+0]; the source gives the opposite infinity for [-0]. *)
Definition div (a b : number) : number :=
  match a, b with
  | NaN, _ | _, NaN => NaN
  | Fin x, Fin y => if Req_dec_T y 0 then signed_inf true x else Fin (x / y)
  | Fin _, (PInf | NInf) => Fin 0
  | PInf, Fin y => if Rlt_dec y 0 then NInf else PInf
  | NInf, Fin y => if Rlt_dec y 0 then PInf else NInf
  | (PInf | NInf), (PInf | NInf) => NaN
  end.

(** [a < b]; every comparison with [NaN] is false. *)
Definition lt (a b : number) : bool :=
  match a, b with
  | NaN, _ | _, NaN => false
  | Fin x, Fin y => if Rlt_dec x y then true else false
  | _, NInf => false
  | NInf, _ => true
  | PInf, _ => false
  | _, PInf => true
  end.

(** Truthiness of a number, as [||] and [if] test it: [0] and [NaN] are
    falsy.  An absent numeric field ([undefined]) is represented by [NaN]:
    it is falsy and turns into [NaN] in arithmetic. *)
Definition truthy (a : number) : bool :=
  match a with
  | Fin x => if Req_dec_T x 0 then false else true
  | PInf | NInf => true
  | NaN => false
  end.

(** [a || d] on numbers. *)
Definition or_else (a d : number) : number := if truthy a then a else d.

Definition Math_PI : number := Fin PI.

Definition Math_min (a b : number) : number :=
  match a, b with
  | NaN, _ | _, NaN => NaN
  | Fin x, Fin y => Fin (Rmin x y)
  | NInf, _ | _, NInf => NInf
  | PInf, c | c, PInf => c
  end.

Definition Math_max (a b : number) : number :=
  match a, b with
  | NaN, _ | _, NaN => NaN
  | Fin x, Fin y => Fin (Rmax x y)
  | PInf, _ | _, PInf => PInf
  | NInf, c | c, NInf => c
  end.

(** [Math.pow(a, n)] for a natural exponent [n]. *)
Definition Math_pow (a : number) (n : nat) : number :=
  match n with
  | O => Fin 1
  | S _ =>
      match a with
      | Fin x => Fin (x ^ n)
      | PInf => PInf
      | NInf => if Nat.odd n then NInf else PInf
      | NaN => NaN
      end
  end.

Definition Math_cos (a : number) : number :=
  match a with Fin x => Fin (cos x) | _ => NaN end.

Definition Math_sin (a : number) : number :=
  match a with Fin x => Fin (sin x) | _ => NaN end.

Definition Math_sqrt (a : number) : number :=
  match a with
  | Fin x => if Rlt_dec x 0 then NaN else Fin (sqrt x)
  | PInf => PInf
  | NInf | NaN => NaN
  end.

Definition finite (a : number) : Prop :=
  match a with Fin _ => True | _ => False end.

End JS.

Export JS.
Coercion Fin : R >-> number.

Declare Scope js_scope.
Delimit Scope js_scope with js.
Bind Scope js_scope with number.
Infix "+" := add : js_scope.
Infix "-" := sub : js_scope.
Infix "*" := mul : js_scope.
Infix "/" := div : js_scope.
Notation "- a" := (neg a) : js_scope.
Infix "<?" := lt (at level 70, no associativity) : js_scope.
Infix "||" := or_else : js_scope.

(** ** three.js vectors *)

Record Vector3 : Type := vec3 { x : number; y : number; z : number }.

(** [Vector3.lerpVectors(v1, v2, alpha)]: each component is
    [v1 + (v2 - v1) * alpha]. *)
Definition lerpVectors (v1 v2 : Vector3) (alpha : number) : Vector3 :=
  {| x := (x v1 + (x v2 - x v1) * alpha)%js;
     y := (y v1 + (y v2 - y v1) * alpha)%js;
     z := (z v1 + (z v2 - z v1) * alpha)%js |}.

(** [Vector3.add] *)
Definition vadd (a b : Vector3) : Vector3 :=
  {| x := (x a + x b)%js; y := (y a + y b)%js; z := (z a + z b)%js |}.

(** [Vector3.distanceTo] *)
Definition distanceTo (a b : Vector3) : number :=
  (let dx := x a - x b in
   let dy := y a - y b in
   let dz := z a - z b in
   Math_sqrt (dx * dx + dy * dy + dz * dz))%js.

Definition finiteV (v : Vector3) : Prop :=
  finite (x v) /\ finite (y v) /\ finite (z v).

(** ** Values and completions *)

(** The values a method of the modelled classes can return. *)
Inductive value : Type :=
| undefined
| boolean (b : bool).

(** How an asynchronous step ends: it resolves with a result or rejects. *)
Inductive completion (A : Type) : Type :=
| Resolved (a : A)
| Rejected (reason : string).
Arguments Resolved {A} a.
Arguments Rejected {A} reason.

(** ** [src/planets.js] *)

(** An entry of [/data/planets.json], with the fields [createPlanet]
    reads for the orbital state and for the numbers of the info panel.
    An absent [parent] is [None]; an absent numeric field is [NaN], which
    JSON cannot write itself.  [name], [description] and [texture] are
    only displayed. *)
Module PlanetData.
Record t : Type := mk {
  id : string;
  type : string;
  relative_scale : number;
  orbital_radius_au : number;
  orbital_radius_earth : number;
  orbital_period_days : number;
  rotation_period_hours : number;
  parent : option string;
  diameter_km : number
}.
End PlanetData.

(** [planet.userData], lines 253-265, without [name] and [description]. *)
Module UserData.
Record t : Type := mk {
  id : string;
  orbitalRadius : number;
  orbitalPeriod : number;
  rotationPeriod : number;
  currentAngle : number;
  isStar : bool;
  isSatellite : bool;
  parent : option string;
  diameter_km : number
}.

Definition with_currentAngle (a : number) (u : t) : t :=
  mk (id u) (orbitalRadius u) (orbitalPeriod u) (rotationPeriod u) a
     (isStar u) (isSatellite u) (parent u) (diameter_km u).
End UserData.

(** A [THREE.Mesh]: its [userData], [position], [rotation.y] and
    [geometry.parameters.radius]. *)
Record Mesh : Type := mkMesh {
  userData : UserData.t;
  position : Vector3;
  rotation_y : number;
  radius : number
}.

Definition with_userData (u : UserData.t) (p : Mesh) : Mesh :=
  mkMesh u (position p) (rotation_y p) (radius p).
Definition with_position (v : Vector3) (p : Mesh) : Mesh :=
  mkMesh (userData p) v (rotation_y p) (radius p).
Definition with_rotation_y (r : number) (p : Mesh) : Mesh :=
  mkMesh (userData p) (position p) r (radius p).

(** The fields of a [PlanetSystem] that the orbital update reads and
    writes. *)
Record PlanetSystem : Type := mkSystem {
  planets : list Mesh;
  timeSpeed : number;
  isPaused : bool
}.

(** [constructor(scene)], lines 144-151. *)
Definition newPlanetSystem : PlanetSystem :=
  {| planets := []; timeSpeed := Fin 1; isPaused := false |}.

(** [loadPlanetsData()], lines 167-176: the parsed response, or [[]] when
    the fetch or the parse throws ([response = None]). *)
Definition loadPlanetsData (response : option (list PlanetData.t))
  : list PlanetData.t :=
  match response with
  | Some data => data
  | None => []
  end.

(** Truthiness of a string-or-null. *)
Definition truthy_string (s : option string) : bool :=
  match s with
  | Some s => negb (String.eqb s EmptyString)
  | None => false
  end.

(** [s || null] *)
Definition or_null (s : option string) : option string :=
  if truthy_string s then s else None.

(** [geometry.parameters.radius] of
    [new THREE.SphereGeometry(planetData.relative_scale, ...)], line 213:
    the constructor's own default, 1, stands in for an absent scale. *)
Definition sphereRadius (relative_scale : number) : number :=
  match relative_scale with
  | NaN => Fin 1
  | _ => relative_scale
  end.

(** [createPlanet(planetData)], lines 206-290.  [random] is the value that
    the call [Math.random()] on line 259 returns: a draw of the runtime,
    not an argument of the method.  Material, texture, ring, orbit path
    and label do not touch the orbital state and are left out. *)
Definition createPlanet (planetData : PlanetData.t) (random : R)
    (this : PlanetSystem) : Mesh * PlanetSystem :=
  let isStar := String.eqb (PlanetData.type planetData) "star" in
  let isSatellite := String.eqb (PlanetData.type planetData) "satellite" in
  let userData :=
    {| UserData.id := PlanetData.id planetData;
       UserData.orbitalRadius :=
         (if isSatellite
          then PlanetData.orbital_radius_earth planetData || 5
          else PlanetData.orbital_radius_au planetData * 50)%js;
       UserData.orbitalPeriod := PlanetData.orbital_period_days planetData;
       UserData.rotationPeriod := PlanetData.rotation_period_hours planetData;
       UserData.currentAngle := (random * Math_PI * 2)%js;
       UserData.isStar := isStar;
       UserData.isSatellite := isSatellite;
       UserData.parent := or_null (PlanetData.parent planetData);
       UserData.diameter_km := PlanetData.diameter_km planetData |} in
  let planet :=
    {| userData := userData;
       position := vec3 0 0 0;
       rotation_y := 0;
       radius := sphereRadius (PlanetData.relative_scale planetData) |} in
  let planet :=
    if negb isStar && negb isSatellite then
      with_position
        {| x := (UserData.orbitalRadius userData
                 * Math_cos (UserData.currentAngle userData))%js;
           y := y (position planet);
           z := (UserData.orbitalRadius userData
                 * Math_sin (UserData.currentAngle userData))%js |}
        planet
    else planet in
  (planet,
   {| planets := planets this ++ [planet];
      timeSpeed := timeSpeed this;
      isPaused := isPaused this |}).

(** [getPlanetById(id)], lines 442-444. *)
Definition getPlanetById (planets : list Mesh) (id : string) : option Mesh :=
  find (fun p => String.eqb (UserData.id (userData p)) id) planets.

(** [planet.rotation.y += (2π / (rotationPeriod * 3600)) * deltaTime *
    timeSpeed], lines 405 and 410. *)
Definition rotate (deltaTime timeSpeed : number) (planet : Mesh) : Mesh :=
  with_rotation_y
    (rotation_y planet
     + (2 * Math_PI / (UserData.rotationPeriod (userData planet) * 3600))
       * deltaTime * timeSpeed)%js
    planet.

(** [userData.currentAngle += angularVelocity * deltaTime * timeSpeed *
    86400], lines 417-418 and 433-434. *)
Definition advanceAngle (deltaTime timeSpeed : number) (planet : Mesh)
  : Mesh :=
  let userData := userData planet in
  let angularVelocity :=
    (2 * Math_PI / (UserData.orbitalPeriod userData * 86400))%js in
  with_userData
    (UserData.with_currentAngle
       (UserData.currentAngle userData
        + angularVelocity * deltaTime * timeSpeed * 86400)%js
       userData)
    planet.

(** The callback of [this.planets.forEach], lines 400-439, applied to
    [planet] while the array holds [before ++ planet :: after]: the
    bodies of [before] have already been updated in this call, those of
    [after] not yet. *)
Definition updatePlanet (deltaTime timeSpeed : number)
    (before : list Mesh) (planet : Mesh) (after : list Mesh) : Mesh :=
  if UserData.isStar (userData planet) then
    rotate deltaTime timeSpeed planet
  else
    let planet := rotate deltaTime timeSpeed planet in
    if UserData.isSatellite (userData planet)
       && truthy_string (UserData.parent (userData planet)) then
      match UserData.parent (userData planet) with
      | Some parent =>
          match getPlanetById (before ++ planet :: after) parent with
          | Some parentPlanet =>
              let planet := advanceAngle deltaTime timeSpeed planet in
              let userData := userData planet in
              let offsetX :=
                (UserData.orbitalRadius userData
                 * Math_cos (UserData.currentAngle userData))%js in
              let offsetZ :=
                (UserData.orbitalRadius userData
                 * Math_sin (UserData.currentAngle userData))%js in
              with_position
                {| x := (x (position parentPlanet) + offsetX)%js;
                   y := y (position parentPlanet);
                   z := (z (position parentPlanet) + offsetZ)%js |}
                planet
          | None => planet
          end
      | None => planet
      end
    else
      let planet := advanceAngle deltaTime timeSpeed planet in
      let userData := userData planet in
      with_position
        {| x := (UserData.orbitalRadius userData
                 * Math_cos (UserData.currentAngle userData))%js;
           y := y (position planet);
           z := (UserData.orbitalRadius userData
                 * Math_sin (UserData.currentAngle userData))%js |}
        planet.

(** [Array.prototype.forEach] with a callback that updates the visited
    element in place: [done] are the elements already visited. *)
Fixpoint forEach (f : list Mesh -> Mesh -> list Mesh -> Mesh)
    (done todo : list Mesh) : list Mesh :=
  match todo with
  | [] => done
  | planet :: rest => forEach f (done ++ [f done planet rest]) rest
  end.

(** [updatePositions(deltaTime)], lines 397-440. *)
Definition updatePositions (deltaTime : number) (this : PlanetSystem)
  : PlanetSystem :=
  if isPaused this then this
  else
    {| planets :=
         forEach (updatePlanet deltaTime (timeSpeed this)) [] (planets this);
       timeSpeed := timeSpeed this;
       isPaused := isPaused this |}.

(** [togglePause()], [setPaused(paused)] and [setTimeSpeed(speed)],
    lines 446-457. *)
Definition togglePause (this : PlanetSystem) : PlanetSystem * bool :=
  ({| planets := planets this;
      timeSpeed := timeSpeed this;
      isPaused := negb (isPaused this) |},
   negb (isPaused this)).

Definition setPaused (paused : bool) (this : PlanetSystem) : PlanetSystem :=
  {| planets := planets this;
     timeSpeed := timeSpeed this;
     isPaused := paused |}.

Definition setTimeSpeed (speed : number) (this : PlanetSystem)
  : PlanetSystem :=
  {| planets := planets this;
     timeSpeed := speed;
     isPaused := isPaused this |}.

(** The [input] listener of the speed slider, [src/ui.js] lines 50-54:
    the slider value is an integer between 0 and 100. *)
Definition onSpeedInput (sliderValue : nat) (this : PlanetSystem)
  : PlanetSystem :=
  let speed := (Fin (INR sliderValue) / 10)%js in
  setTimeSpeed speed this.

(** ** [src/main.js]: loading the bodies *)

(** The loop of [init], lines 29-31: one [createPlanet] per descriptor;
    [random k] is the draw of the [k]-th [Math.random()] call, counted
    from [first]. *)
Fixpoint createPlanets (planetsData : list PlanetData.t)
    (random : nat -> R) (first : nat) (sys : PlanetSystem) : PlanetSystem :=
  match planetsData with
  | [] => sys
  | planetData :: rest =>
      createPlanets rest random (S first)
        (snd (createPlanet planetData (random first) sys))
  end.

(** [init()], lines 19-31.  [response1] answers the fetch inside
    [loadPlanetsData], whose result is dropped; [response2] answers the
    fetch of line 28, which has no handler: when it fails, [init]
    rejects. *)
Definition init (response1 response2 : option (list PlanetData.t))
    (random : nat -> R) : completion PlanetSystem :=
  let _ := loadPlanetsData response1 in
  match response2 with
  | None => Rejected "fetch"
  | Some planetsData =>
      Resolved (createPlanets planetsData random 0 newPlanetSystem)
  end.

(** ** [src/controls.js] *)

(** The variables an [animate] closure captures: the start and end states
    of the camera position and of the look-target, the start time and the
    duration. *)
Record Animation : Type := mkAnimation {
  startCameraPos : Vector3;
  targetCameraPos : Vector3;
  startTarget : Vector3;
  targetFocus : Vector3;
  startTime : number;
  durationMs : number
}.

(** [this.controls], an [OrbitControls] of three.js, whose code is outside
    the repository.  Its [update()] reads [camera.position] and its own
    [target] and writes both back: it re-places the camera on a sphere
    around the target (distance between [minDistance] and [maxDistance],
    clamped polar angle, the rounding of the spherical coordinates) and
    applies what the user's drags and the damping have left pending.
    That effect is a parameter: [orbitControls k (position, target)] is
    what the call number [k] of [update()] makes of the position and the
    target it finds.  Every run of the program is covered by one such
    function, since each call has its own number. *)
Definition OrbitControls : Type :=
  nat -> Vector3 * Vector3 -> Vector3 * Vector3.

(** A [Controls] object: [camera.position], [controls.target], the flag
    [isFocusing], the [animate] closures handed to
    [requestAnimationFrame] that have not run yet, the [OrbitControls]
    and the number of calls of its [update()] so far. *)
Record Controls : Type := mkControls {
  camera_position : Vector3;
  target : Vector3;
  isFocusing : bool;
  requested : list Animation;
  orbitControls : OrbitControls;
  updates : nat
}.

(** [requestAnimationFrame(animate)] *)
Definition requestAnimationFrame (animate : Animation) (this : Controls)
  : Controls :=
  {| camera_position := camera_position this;
     target := target this;
     isFocusing := isFocusing this;
     requested := requested this ++ [animate];
     orbitControls := orbitControls this;
     updates := updates this |}.

(** [this.controls.update()], lines 26, 32, 82 and 121. *)
Definition update (this : Controls) : Controls :=
  let placed :=
    orbitControls this (updates this) (camera_position this, target this) in
  {| camera_position := fst placed;
     target := snd placed;
     isFocusing := isFocusing this;
     requested := requested this;
     orbitControls := orbitControls this;
     updates := S (updates this) |}.

(** The easing expression of lines 72-74 and 114-116. *)
Definition eased (t : number) : number :=
  (if t <? 0.5
   then 4 * t * t * t
   else 1 - Math_pow (-2 * t + 2) 3 / 2)%js.

(** The closure [animate], lines 67-89 in [focusOnPlanet] and 110-128 in
    [resetCamera]; the two bodies differ only in the names of the
    captured end states.  The interpolated position and target are
    written, then [update()] is called, then the progress is tested. *)
Definition animate (a : Animation) (time : number) (this : Controls)
  : Controls :=
  let elapsed := (time - startTime a)%js in
  let t := Math_min (elapsed / durationMs a)%js 1 in
  let eased := eased t in
  let this :=
    {| camera_position :=
         lerpVectors (startCameraPos a) (targetCameraPos a) eased;
       target := lerpVectors (startTarget a) (targetFocus a) eased;
       isFocusing := isFocusing this;
       requested := requested this;
       orbitControls := orbitControls this;
       updates := updates this |} in
  let this := update this in
  if (t <? 1)%js then requestAnimationFrame a this
  else
    {| camera_position := camera_position this;
       target := target this;
       isFocusing := false;
       requested := requested this;
       orbitControls := orbitControls this;
       updates := updates this |}.

(** A frame of the browser at timestamp [time]: the closures requested so
    far run in order; what they request runs in a later frame. *)
Definition runFrame (time : number) (this : Controls) : Controls :=
  fold_left (fun c a => animate a time c) (requested this)
    {| camera_position := camera_position this;
       target := target this;
       isFocusing := isFocusing this;
       requested := [];
       orbitControls := orbitControls this;
       updates := updates this |}.

(** The default value [2000] of the parameter [durationMs]. *)
Definition durationOr2000 (durationMs : option number) : number :=
  match durationMs with
  | Some d => d
  | None => Fin 2000
  end.

(** [focusOnPlanet(planet, durationMs = 2000)], lines 40-92; [now] is the
    value of [performance.now()] on line 65. *)
Definition focusOnPlanet (planet : Mesh) (durationMs : option number)
    (now : number) (this : Controls) : Controls * value :=
  if isFocusing this then (this, undefined)
  else
    let durationMs := durationOr2000 durationMs in
    let targetFocus := position planet in
    let planetRadius := radius planet in
    let distance := Math_max (planetRadius * 5)%js 10 in
    let angle := (UserData.currentAngle (userData planet) || 0)%js in
    let cameraOffset :=
      {| x := (- Math_cos angle * distance)%js;
         y := (distance * 0.5)%js;
         z := (- Math_sin angle * distance)%js |} in
    let targetCameraPos := vadd targetFocus cameraOffset in
    let a :=
      {| startCameraPos := camera_position this;
         targetCameraPos := targetCameraPos;
         startTarget := target this;
         targetFocus := targetFocus;
         startTime := now;
         durationMs := durationMs |} in
    (requestAnimationFrame a
       {| camera_position := camera_position this;
          target := target this;
          isFocusing := true;
          requested := requested this;
          orbitControls := orbitControls this;
          updates := updates this |},
     undefined).

(** [resetCamera(durationMs = 2000)], lines 98-131. *)
Definition resetCamera (durationMs : option number) (now : number)
    (this : Controls) : Controls * value :=
  if isFocusing this then (this, undefined)
  else
    let durationMs := durationOr2000 durationMs in
    let defaultCameraPos := vec3 0 50 100 in
    let defaultTarget := vec3 0 0 0 in
    let a :=
      {| startCameraPos := camera_position this;
         targetCameraPos := defaultCameraPos;
         startTarget := target this;
         targetFocus := defaultTarget;
         startTime := now;
         durationMs := durationMs |} in
    (requestAnimationFrame a
       {| camera_position := camera_position this;
          target := target this;
          isFocusing := true;
          requested := requested this;
          orbitControls := orbitControls this;
          updates := updates this |},
     undefined).

(** ** Notions used in the statements *)

(** A sequence of frames: [updatePositions] once per elapsed delta. *)
Definition ticks (deltas : list number) (sys : PlanetSystem) : PlanetSystem :=
  fold_left (fun s deltaTime => updatePositions deltaTime s) deltas sys.

(** A sequence of frames in which the speed slider may move before each
    frame: pairs of the new [timeSpeed] and the frame's delta. *)
Definition ticksAtSpeeds (frames : list (number * number))
    (sys : PlanetSystem) : PlanetSystem :=
  fold_left
    (fun s frame => updatePositions (snd frame) (setTimeSpeed (fst frame) s))
    frames sys.

(** The ids of the bodies, in array order. *)
Definition ids (l : list Mesh) : list string :=
  map (fun p => UserData.id (userData p)) l.

(** Sum of a list of reals. *)
Definition Rsum (l : list R) : R := fold_right Rplus 0 l.

(** The ease-in-out cubic as the specification words it:
    [4t³] below one half, [1 − (−2t + 2)³ / 2] from one half on. *)
Definition easeInOutCubic (t : R) : R :=
  if Rlt_dec t (1 / 2) then 4 * t ^ 3 else 1 - ((- 2 * t + 2) ^ 3) / 2.

(** What the loader keeps of a descriptor, and what a created body shows
    of it. *)
Definition declared (d : PlanetData.t)
  : string * number * number * option string :=
  (PlanetData.id d, PlanetData.orbital_period_days d,
   PlanetData.rotation_period_hours d, or_null (PlanetData.parent d)).

Definition stored (p : Mesh) : string * number * number * option string :=
  (UserData.id (userData p), UserData.orbitalPeriod (userData p),
   UserData.rotationPeriod (userData p), UserData.parent (userData p)).

(** A finite number other than zero. *)
Definition nonzero (a : number) : Prop :=
  exists r : R, a = Fin r /\ r <> 0.

(** The body [p] is at [center + orbitalRadius × (cos, 0, sin)] of its
    [currentAngle]. *)
Definition onOrbit (center : Vector3) (p : Mesh) : Prop :=
  let u := userData p in
  let r := UserData.orbitalRadius u in
  let a := UserData.currentAngle u in
  position p =
    {| x := (x center + r * Math_cos a)%js;
       y := y center;
       z := (z center + r * Math_sin a)%js |}.

(** A body is at rest in the array [l] when a frame at zero speed has
    nothing to move: its periods are finite and not zero where the frame
    divides by them, and its position already is the one the frame
    writes. *)
Definition atRest (l : list Mesh) (p : Mesh) : Prop :=
  let u := userData p in
  let r := UserData.orbitalRadius u in
  let a := UserData.currentAngle u in
  nonzero (UserData.rotationPeriod u) /\
  (UserData.isStar u = false ->
   if UserData.isSatellite u && truthy_string (UserData.parent u) then
     match UserData.parent u with
     | Some parent =>
         match getPlanetById l parent with
         | Some parentPlanet =>
             nonzero (UserData.orbitalPeriod u) /\
             onOrbit (position parentPlanet) p
         | None => True
         end
     | None => True
     end
   else
     nonzero (UserData.orbitalPeriod u) /\
     x (position p) = (r * Math_cos a)%js /\
     z (position p) = (r * Math_sin a)%js).

(** ** Sample data *)

Module Sample.

Definition earthData : PlanetData.t :=
  {| PlanetData.id := "earth";
     PlanetData.type := "planet";
     PlanetData.relative_scale := 1;
     PlanetData.orbital_radius_au := 1;
     PlanetData.orbital_radius_earth := NaN;
     PlanetData.orbital_period_days := 365.25;
     PlanetData.rotation_period_hours := 24;
     PlanetData.parent := None;
     PlanetData.diameter_km := 12742 |}.

Definition moonData : PlanetData.t :=
  {| PlanetData.id := "moon";
     PlanetData.type := "satellite";
     PlanetData.relative_scale := 0.27;
     PlanetData.orbital_radius_au := 0;
     PlanetData.orbital_radius_earth := 5;
     PlanetData.orbital_period_days := 27.3;
     PlanetData.rotation_period_hours := 655.7;
     PlanetData.parent := Some "earth";
     PlanetData.diameter_km := 3474.8 |}.

(** A descriptor with both periods zero. *)
Definition stalledData : PlanetData.t :=
  {| PlanetData.id := "stalled";
     PlanetData.type := "planet";
     PlanetData.relative_scale := 1;
     PlanetData.orbital_radius_au := 1;
     PlanetData.orbital_radius_earth := NaN;
     PlanetData.orbital_period_days := 0;
     PlanetData.rotation_period_hours := 0;
     PlanetData.parent := None;
     PlanetData.diameter_km := 1000 |}.

(** Two satellites that name each other as parent, and one whose parent
    is not in the file. *)
Definition phobosData : PlanetData.t :=
  {| PlanetData.id := "phobos";
     PlanetData.type := "satellite";
     PlanetData.relative_scale := 0.1;
     PlanetData.orbital_radius_au := 0;
     PlanetData.orbital_radius_earth := 3;
     PlanetData.orbital_period_days := 1;
     PlanetData.rotation_period_hours := 8;
     PlanetData.parent := Some "deimos";
     PlanetData.diameter_km := 22.2 |}.

Definition deimosData : PlanetData.t :=
  {| PlanetData.id := "deimos";
     PlanetData.type := "satellite";
     PlanetData.relative_scale := 0.1;
     PlanetData.orbital_radius_au := 0;
     PlanetData.orbital_radius_earth := 4;
     PlanetData.orbital_period_days := 2;
     PlanetData.rotation_period_hours := 30;
     PlanetData.parent := Some "phobos";
     PlanetData.diameter_km := 12.4 |}.

Definition orphanData : PlanetData.t :=
  {| PlanetData.id := "charon";
     PlanetData.type := "satellite";
     PlanetData.relative_scale := 0.1;
     PlanetData.orbital_radius_au := 0;
     PlanetData.orbital_radius_earth := 2;
     PlanetData.orbital_period_days := 6;
     PlanetData.rotation_period_hours := 153;
     PlanetData.parent := Some "pluto";
     PlanetData.diameter_km := 1212 |}.

(** Bodies as [createPlanet] builds them, of radius 1 and with the
    diameter of the earth, or of the moon for a satellite. *)
Definition body (id : string) (orbitalRadius orbitalPeriod rotationPeriod
    currentAngle : number) (isSatellite : bool) (parent : option string)
    (position : Vector3) : Mesh :=
  {| userData :=
       {| UserData.id := id;
          UserData.orbitalRadius := orbitalRadius;
          UserData.orbitalPeriod := orbitalPeriod;
          UserData.rotationPeriod := rotationPeriod;
          UserData.currentAngle := currentAngle;
          UserData.isStar := false;
          UserData.isSatellite := isSatellite;
          UserData.parent := parent;
          UserData.diameter_km := if isSatellite then 3474.8 else 12742 |};
     position := position;
     rotation_y := 0;
     radius := 1 |}.

(** A planet on a four-day orbit of radius 150 at angle 0, and its moon
    on a four-day orbit of radius 5 at angle 0. *)
Definition planet4 : Mesh :=
  body "earth" 150 4 24 0 false None (vec3 150 0 0).

Definition moon4 : Mesh :=
  body "moon" 5 4 24 0 true (Some "earth") (vec3 155 0 0).

(** The moon listed before its planet. *)
Definition moonFirst : PlanetSystem :=
  {| planets := [moon4; planet4]; timeSpeed := 1; isPaused := false |}.

(** The planet listed before its moon. *)
Definition planetFirst : PlanetSystem :=
  {| planets := [planet4; moon4]; timeSpeed := 1; isPaused := false |}.

(** The moon alone: its parent is not in the system. *)
Definition moonAlone : PlanetSystem :=
  {| planets := [moon4]; timeSpeed := 1; isPaused := false |}.

(** Earth on its year-long orbit, alone in a running system. *)
Definition earth : Mesh :=
  body "earth" 50 365.25 24 0 false None (vec3 50 0 0).

Definition earthAlone (paused : bool) : PlanetSystem :=
  {| planets := [earth]; timeSpeed := 1; isPaused := paused |}.

(** Earth and its moon, each where its angle puts it. *)
Definition moon : Mesh :=
  body "moon" 5 27.3 655.7 0 true (Some "earth") (vec3 55 0 0).

Definition settled : PlanetSystem :=
  {| planets := [earth; moon]; timeSpeed := 1; isPaused := false |}.

(** Earth and moon as [init] creates them when every draw is 0, and the
    slider then moved to 0 before the first frame. *)
Definition fresh : PlanetSystem :=
  createPlanets [earthData; moonData] (fun _ => 0) 0 newPlanetSystem.

(** An [OrbitControls] with nothing pending and the camera within its
    limits: [update()] leaves the position and the target it finds. *)
Definition still : OrbitControls := fun _ view => view.

(** An [OrbitControls] with a pan pending: every [update()] moves the
    position and the target by one unit along [x]. *)
Definition panning : OrbitControls :=
  fun _ view =>
    (vadd (fst view) (vec3 1 0 0), vadd (snd view) (vec3 1 0 0)).

(** A camera at the default overview, no animation running. *)
Definition idle : Controls :=
  {| camera_position := vec3 0 50 100;
     target := vec3 0 0 0;
     isFocusing := false;
     requested := [];
     orbitControls := still;
     updates := 1 |}.

(** A camera at [(10, 5, 0)] looking at [(10, 0, 0)], no animation
    running. *)
Definition parked : Controls :=
  {| camera_position := vec3 10 5 0;
     target := vec3 10 0 0;
     isFocusing := false;
     requested := [];
     orbitControls := still;
     updates := 1 |}.

(** The state in which a frame runs the closure of an animation in
    flight, the camera at [(10, 5, 0)] looking at [(10, 0, 0)], while a
    pan is pending. *)
Definition busy : Controls :=
  {| camera_position := vec3 10 5 0;
     target := vec3 10 0 0;
     isFocusing := true;
     requested := [];
     orbitControls := panning;
     updates := 7 |}.

(** A reset animation of two seconds, requested at time 0 while the
    camera is at [(10, 5, 0)] looking at [(10, 0, 0)]. *)
Definition forwards : Animation :=
  {| startCameraPos := vec3 10 5 0;
     targetCameraPos := vec3 0 50 100;
     startTarget := vec3 10 0 0;
     targetFocus := vec3 0 0 0;
     startTime := 0;
     durationMs := 2000 |}.

(** A reset animation with a negative duration, requested at time 0
    while the camera is at [(10, 5, 0)] looking at [(10, 0, 0)]. *)
Definition backwards : Animation :=
  {| startCameraPos := vec3 10 5 0;
     targetCameraPos := vec3 0 50 100;
     startTarget := vec3 10 0 0;
     targetFocus := vec3 0 0 0;
     startTime := 0;
     durationMs := (-1000) |}.

End Sample.

(** * More of the code *)

(** ** [src/planets.js]: geometry of a body and of its orbit path *)

(** [Math.floor] *)
Definition Math_floor (a : number) : number :=
  match a with
  | Fin r => Fin (IZR (Int_part r))
  | _ => a
  end.

(** The detail level of the sphere, line 211 of [createPlanet]. *)
Definition segments (planetData : PlanetData.t) : number :=
  Math_max 16
    (Math_min 64 (Math_floor (PlanetData.relative_scale planetData * 16)%js)).

(** [createOrbitPath(radius)], lines 337-348: the points pushed by the
    loop [for (let i = 0; i <= segments; i++)] with [segments = 128]. *)
Definition orbitPoint (radius : number) (i : nat) : Vector3 :=
  let angle := (Fin (INR i) / 128 * Math_PI * 2)%js in
  {| x := (radius * Math_cos angle)%js;
     y := 0;
     z := (radius * Math_sin angle)%js |}.

Definition createOrbitPath (radius : number) : list Vector3 :=
  map (orbitPoint radius) (seq 0 (128 + 1)).

(** The orbit paths after [createPlanet], lines 281-284: a path is drawn
    for a body that is neither star nor satellite and has
    [orbital_radius_au > 0]. *)
Definition createPlanetOrbit (planetData : PlanetData.t) (planet : Mesh)
    (orbits : list (list Vector3)) : list (list Vector3) :=
  let isStar := String.eqb (PlanetData.type planetData) "star" in
  let isSatellite := String.eqb (PlanetData.type planetData) "satellite" in
  if negb isStar && negb isSatellite
     && (0 <? PlanetData.orbital_radius_au planetData)%js
  then orbits ++ [createOrbitPath (UserData.orbitalRadius (userData planet))]
  else orbits.

(** What no frame changes in a body. *)
Definition static (p : Mesh)
  : string * number * number * number * bool * bool * option string * number :=
  (UserData.id (userData p), UserData.orbitalRadius (userData p),
   UserData.orbitalPeriod (userData p), UserData.rotationPeriod (userData p),
   UserData.isStar (userData p), UserData.isSatellite (userData p),
   UserData.parent (userData p), radius p).

(** A body as [createPlanet] leaves it: the angle in [[0, 2π)], no
    rotation yet, at height 0; never star and satellite at once; a
    satellite with a usable orbital radius; stars and satellites at the
    origin and planets on their circle. *)
Definition asCreated (p : Mesh) : Prop :=
  let u := userData p in
  (exists a : R, UserData.currentAngle u = Fin a /\ 0 <= a < 2 * PI) /\
  rotation_y p = Fin 0 /\
  y (position p) = Fin 0 /\
  UserData.isStar u && UserData.isSatellite u = false /\
  (UserData.isSatellite u = true ->
   truthy (UserData.orbitalRadius u) = true) /\
  (if UserData.isStar u || UserData.isSatellite u
   then position p = vec3 0 0 0
   else x (position p)
        = (UserData.orbitalRadius u * Math_cos (UserData.currentAngle u))%js
        /\ z (position p)
           = (UserData.orbitalRadius u
              * Math_sin (UserData.currentAngle u))%js).

(** A real lies between two others, in either order. *)
Definition between (a b v : R) : Prop :=
  (a <= v <= b) \/ (b <= v <= a).

(** Each coordinate of [v] lies between those of [a] and [b]. *)
Definition betweenV (a b v : Vector3) : Prop :=
  exists ax ay az bx by_ bz vx vy vz : R,
    a = vec3 ax ay az /\ b = vec3 bx by_ bz /\ v = vec3 vx vy vz /\
    between ax bx vx /\ between ay by_ vy /\ between az bz vz.

(** ** [src/scene.js] and the constructor of [Controls] *)

(** [this.camera.position.set(0, 50, 100)], [src/scene.js] line 17. *)
Definition initialCameraPosition : Vector3 := vec3 0 50 100.

(** [new Controls(camera, canvas)], lines 7-29 of [controls.js]: the
    look-target is set to the origin, [update()] is called once and no
    animation runs.  [camera_position] is where
    [new OrbitControls(camera, canvas)] on line 9 leaves the camera. *)
Definition newControls (camera_position : Vector3)
    (orbitControls : OrbitControls) : Controls :=
  update
    {| camera_position := camera_position;
       target := vec3 0 0 0;
       isFocusing := false;
       requested := [];
       orbitControls := orbitControls;
       updates := 0 |}.

(** ** [src/main.js]: pointer coordinates *)

(** The normalized device coordinates of a pointer, lines 87-88, 116-117,
    140-141 and 163-164:
    [x = (clientX / innerWidth) * 2 - 1],
    [y = -(clientY / innerHeight) * 2 + 1]. *)
Definition pointerNDC (clientX clientY innerWidth innerHeight : number)
  : number * number :=
  ((clientX / innerWidth * 2 - 1)%js,
   (- (clientY / innerHeight) * 2 + 1)%js).

(** ** [src/ui.js] *)

(** What [showPlanetInfo] can be handed: a body of the system, or an
    object that [createPlanet] hangs below a body, its label sprite
    (line 388) or Saturn's ring (line 333).  The raycaster reports those
    too when it descends into the children of the bodies, and their
    [userData] is empty. *)
Inductive Object3D : Type :=
| planetMesh (planet : Mesh)
| labelSprite (planet : Mesh)
| saturnRing (planet : Mesh).

(** How a call ends: it returns, or it throws and leaves the state as far
    as it has changed it. *)
Inductive outcome : Type :=
| returns
| throws (error : string).

(** The fields of a [UI] object: its own [isPaused], the object whose
    panel was asked for last, [infoPanel.style.display] and the text of
    the play/pause button. *)
Module UI.
Record t : Type := mk {
  isPaused : bool;
  currentPlanet : option Object3D;
  display : string;
  buttonText : string
}.
End UI.

(** The application: the objects that [SolarSystemApp] holds and that the
    [UI] shares. *)
Record App : Type := mkApp {
  planetSystem : PlanetSystem;
  controls : Controls;
  ui : UI.t
}.

(** [new UI(planetSystem, controls)], lines 4-43: the panel is hidden and
    the button reads "Pause". *)
Definition newUI : UI.t :=
  {| UI.isPaused := false;
     UI.currentPlanet := None;
     UI.display := "none";
     UI.buttonText := "⏸ Pause" |}.

(** The state that [init()] has built when it starts the loop,
    [main.js] lines 19-48, from the bodies loaded, the camera of the
    scene and the [OrbitControls]; the first round of the loop, line 49,
    is a frame like the later ones. *)
Definition newApp (planetSystem : PlanetSystem) (camera_position : Vector3)
    (orbitControls : OrbitControls) : App :=
  {| planetSystem := planetSystem;
     controls := newControls camera_position orbitControls;
     ui := newUI |}.

(** [togglePlayPause()], lines 93-97. *)
Definition togglePlayPause (app : App) : App :=
  let (sys, paused) := togglePause (planetSystem app) in
  {| planetSystem := sys;
     controls := controls app;
     ui := {| UI.isPaused := paused;
              UI.currentPlanet := UI.currentPlanet (ui app);
              UI.display := UI.display (ui app);
              UI.buttonText := if paused then "▶ Play" else "⏸ Pause" |} |}.

(** A numeric field that is there: [toFixed] and [toLocaleString] can be
    called on it. *)
Definition present (a : number) : bool :=
  match a with
  | NaN => false
  | _ => true
  end.

(** Whether the markup of the info panel, lines 113-131, can be built
    from [userData]: it calls [toFixed] on [orbitalPeriod] unless the
    body is a star (lines 123 and 125), [toLocaleString] on
    [diameter_km] (line 127) and [toFixed] on [rotationPeriod]
    (line 128), and on an absent field such a call throws a
    [TypeError]. *)
Definition formats (u : UserData.t) : bool :=
  (UserData.isStar u || present (UserData.orbitalPeriod u))
  && present (UserData.diameter_km u)
  && present (UserData.rotationPeriod u).

(** The same for an object: the empty [userData] of a sprite or ring is
    that of no star and has no [orbitalPeriod]. *)
Definition panel (object : Object3D) : bool :=
  match object with
  | planetMesh planet => formats (userData planet)
  | labelSprite _ | saturnRing _ => false
  end.

(** [showPlanetInfo(planet)], lines 104-136.  The object is made current,
    the system is paused and the button relabelled (lines 106-111); then
    the markup is built, and only when that does not throw is the panel
    displayed (line 133).  The markup itself is left out. *)
Definition showPlanetInfo (object : Object3D) (app : App) : App * outcome :=
  let app :=
    {| planetSystem := setPaused true (planetSystem app);
       controls := controls app;
       ui := {| UI.isPaused := UI.isPaused (ui app);
                UI.currentPlanet := Some object;
                UI.display := UI.display (ui app);
                UI.buttonText := "▶ Play" |} |} in
  if panel object then
    ({| planetSystem := planetSystem app;
        controls := controls app;
        ui := {| UI.isPaused := UI.isPaused (ui app);
                 UI.currentPlanet := UI.currentPlanet (ui app);
                 UI.display := "block";
                 UI.buttonText := UI.buttonText (ui app) |} |},
     returns)
  else (app, throws "TypeError").

(** [hideInfo()], lines 138-146. *)
Definition hideInfo (app : App) : App :=
  {| planetSystem := setPaused false (planetSystem app);
     controls := controls app;
     ui := {| UI.isPaused := UI.isPaused (ui app);
              UI.currentPlanet := None;
              UI.display := "none";
              UI.buttonText := "⏸ Pause" |} |}.

(** [resetView()], lines 99-102; [now] is [performance.now()] inside
    [resetCamera]. *)
Definition resetView (now : number) (app : App) : App :=
  hideInfo
    {| planetSystem := planetSystem app;
       controls := fst (resetCamera (Some (Fin 2000)) now (controls app));
       ui := ui app |}.

(** The table [planetMap] of the keydown listener, lines 66-76. *)
Definition planetMap (code : string) : option string :=
  if String.eqb code "Digit1" then Some "mercury"
  else if String.eqb code "Digit2" then Some "venus"
  else if String.eqb code "Digit3" then Some "earth"
  else if String.eqb code "Digit4" then Some "mars"
  else if String.eqb code "Digit5" then Some "jupiter"
  else if String.eqb code "Digit6" then Some "saturn"
  else if String.eqb code "Digit7" then Some "uranus"
  else if String.eqb code "Digit8" then Some "neptune"
  else if String.eqb code "Digit9" then Some "moon"
  else None.

(** The two calls made for a selected object, [ui.js] lines 81-82 and
    [main.js] lines 127-128 and 151-152: when [showPlanetInfo] throws,
    [focusOnPlanet] is not called.  [showPlanetInfo] returns for bodies
    only, so [focusOnPlanet] is never handed a sprite or a ring. *)
Definition select (object : Object3D) (now : number) (app : App)
  : App * outcome :=
  match showPlanetInfo object app, object with
  | (app, returns), planetMesh planet =>
      ({| planetSystem := planetSystem app;
          controls :=
            fst (focusOnPlanet planet (Some (Fin 2000)) now (controls app));
          ui := ui app |},
       returns)
  | (app, returns), _ => (app, throws "TypeError")
  | (app, throws error), _ => (app, throws error)
  end.

(** The keydown listener, lines 58-90, for the key [code]: the state in
    which the listener ends.  An error thrown by [showPlanetInfo] ends
    it on line 81. *)
Definition onKeydown (code : string) (now : number) (app : App) : App :=
  let app := if String.eqb code "Space" then togglePlayPause app else app in
  let selected :=
    match planetMap code with
    | Some id =>
        match getPlanetById (planets (planetSystem app)) id with
        | Some planet => select (planetMesh planet) now app
        | None => (app, returns)
        end
    | None => (app, returns)
    end in
  match snd selected with
  | returns =>
      if String.eqb code "Escape" then hideInfo (fst selected)
      else fst selected
  | throws _ => fst selected
  end.

(** The [input] listener of the speed slider on the application. *)
Definition onSlider (sliderValue : nat) (app : App) : App :=
  {| planetSystem := onSpeedInput sliderValue (planetSystem app);
     controls := controls app;
     ui := ui app |}.

(** ** [src/main.js]: clicks and frames *)

(** [onMouseClick(event)], lines 114-130, and the touch listener of lines
    132-155 alike; [intersects] is what the raycaster of three.js reports
    for the pointer, nearest first.  The state in which the listener
    ends. *)
Definition onMouseClick (intersects : list Object3D) (now : number)
    (app : App) : App :=
  match intersects with
  | object :: _ => fst (select object now app)
  | [] => app
  end.

(** A frame of the browser.  The loop [animate()], lines 189-202, was
    requested before any camera closure and runs first: it advances the
    bodies by the clock's delta and calls [controls.update()]; then the
    camera closures requested so far run at the frame's timestamp. *)
Definition frame (time deltaTime : number) (app : App) : App :=
  {| planetSystem := updatePositions deltaTime (planetSystem app);
     controls := runFrame time (update (controls app));
     ui := ui app |}.

(** A drag, wheel or touch gesture on the canvas is handled by the
    listeners of [OrbitControls] itself, which end in [update()]. *)
Definition onGesture (app : App) : App :=
  {| planetSystem := planetSystem app;
     controls := update (controls app);
     ui := ui app |}.

(** What can happen to the application. *)
Inductive event : Type :=
| Keydown (code : string) (now : number)
| Click (intersects : list Object3D) (now : number)
| PlayPauseButton
| ResetButton (now : number)
| CloseInfoButton
| Slider (sliderValue : nat)
| Gesture
| Frame (time deltaTime : number).

Definition step (app : App) (e : event) : App :=
  match e with
  | Keydown code now => onKeydown code now app
  | Click intersects now => onMouseClick intersects now app
  | PlayPauseButton => togglePlayPause app
  | ResetButton now => resetView now app
  | CloseInfoButton => hideInfo app
  | Slider sliderValue => onSlider sliderValue app
  | Gesture => onGesture app
  | Frame time deltaTime => frame time deltaTime app
  end.

Definition run (events : list event) (app : App) : App :=
  fold_left step events app.

(** A camera closure is requested exactly when [isFocusing] is set, and
    then only one. *)
Definition oneAnimation (c : Controls) : Prop :=
  if isFocusing c then exists a, requested c = [a] else requested c = [].

(** The three agreements the handlers keep: the button reads "Play"
    exactly when the system is paused, the panel is displayed only while
    an object is current, and at most one animation is in flight. *)
Definition consistent (app : App) : Prop :=
  UI.buttonText (ui app)
  = (if isPaused (planetSystem app) then "▶ Play" else "⏸ Pause") /\
  (UI.display (ui app) = "none" \/
   UI.display (ui app) = "block" /\ UI.currentPlanet (ui app) <> None) /\
  oneAnimation (controls app).

(** The panel is displayed exactly when an object is current. *)
Definition panelInStep (app : App) : Prop :=
  UI.display (ui app)
  = (match UI.currentPlanet (ui app) with
     | Some _ => "block"
     | None => "none"
     end).

(** An event that asks for no panel that cannot be built: the nearest
    object under a click is a body whose numbers are there. *)
Definition showable (e : event) : Prop :=
  match e with
  | Click (object :: _) _ => panel object = true
  | _ => True
  end.

(** Every body has the numbers that the panel formats. *)
Definition allFormat (l : list Mesh) : Prop :=
  Forall (fun b => b = true) (map (fun p => formats (userData p)) l).

(** What the handlers keep when no panel is asked for that cannot be
    built. *)
Definition tidy (app : App) : Prop :=
  panelInStep app /\ allFormat (planets (planetSystem app)).

(** The animation [anim] is in flight, and no animation is. *)
Definition inFlight (anim : Animation) (c : Controls) : Prop :=
  isFocusing c = true /\ requested c = [anim].

Definition atEase (c : Controls) : Prop :=
  isFocusing c = false /\ requested c = [].

(** The frames of a list of timestamps and deltas. *)
Definition framesAt (frames : list (R * number)) : list event :=
  map (fun f => Frame (Fin (fst f)) (snd f)) frames.

(** ** More sample data *)

Module Scene.

(** A star at the origin. *)
Definition sun : Mesh :=
  {| userData :=
       {| UserData.id := "sun";
          UserData.orbitalRadius := 0;
          UserData.orbitalPeriod := 0;
          UserData.rotationPeriod := 609.12;
          UserData.currentAngle := 1;
          UserData.isStar := true;
          UserData.isSatellite := false;
          UserData.parent := None;
          UserData.diameter_km := 1392700 |};
     position := vec3 0 0 0;
     rotation_y := 0;
     radius := 10 |}.

(** The sun, the earth and the moon, running at speed 1. *)
Definition solar : PlanetSystem :=
  {| planets := [sun; Sample.earth; Sample.moon];
     timeSpeed := 1;
     isPaused := false |}.

(** A satellite whose descriptor names no parent. *)
Definition stray : Mesh :=
  Sample.body "stray" 5 4 24 0 true None (vec3 0 0 0).

Definition strayAlone : PlanetSystem :=
  {| planets := [stray]; timeSpeed := 1; isPaused := false |}.

(** The application when [init] starts the loop, with sun, earth and
    moon, and an [OrbitControls] with a pan pending. *)
Definition app : App :=
  newApp solar initialCameraPosition Sample.panning.

End Scene.

(** * Properties *)

(** ** Arithmetic of JavaScript numbers *)

Section Numbers.

Lemma add_zero_r (a : number) : (a + Fin 0)%js = a.
Proof. destruct a; simpl; try reflexivity. f_equal. lra. Qed.

Lemma lt_Fin_true (a b : R) : a < b -> (Fin a <? Fin b)%js = true.
Proof.
  intros H. simpl. destruct (Rlt_dec a b); [reflexivity | contradiction].
Qed.

Lemma lt_Fin_false (a b : R) : b <= a -> (Fin a <? Fin b)%js = false.
Proof. intros H. simpl. destruct (Rlt_dec a b); [lra | reflexivity]. Qed.

Lemma Fin_inj (a b : R) : Fin a = Fin b -> a = b.
Proof. intros H. injection H. trivial. Qed.

Lemma finite_Fin (a : number) : finite a -> exists r, a = Fin r.
Proof. destruct a; simpl; intros H; try contradiction. eauto. Qed.

End Numbers.

(** Decides the comparisons of reals that a goal branches on, closing
    the branches that contradict the context. *)
Ltac js_dec :=
  repeat (match goal with
          | |- context [Rlt_dec ?a ?b] => destruct (Rlt_dec a b); try lra
          | |- context [Req_dec_T ?a ?b] => destruct (Req_dec_T a b); try lra
          end; simpl).

(** ** The easing curve *)

Section Easing.

Lemma eased_Fin (t : R) : eased (Fin t) = Fin (easeInOutCubic t).
Proof.
  unfold eased, easeInOutCubic. simpl. js_dec; simpl; f_equal; lra.
Qed.

Lemma eased_one : eased (Fin 1) = Fin 1.
Proof.
  rewrite eased_Fin. unfold easeInOutCubic. js_dec. f_equal. lra.
Qed.

(** The position and the target after a tick are what [update()] makes
    of the two interpolations. *)
Lemma animate_camera_position (a : Animation) (time : number) (c : Controls) :
  let t := Math_min ((time - startTime a) / durationMs a)%js 1 in
  (camera_position (animate a time c), target (animate a time c))
  = orbitControls c (updates c)
      (lerpVectors (startCameraPos a) (targetCameraPos a) (eased t),
       lerpVectors (startTarget a) (targetFocus a) (eased t)).
Proof.
  unfold animate, update. simpl.
  destruct (Math_min ((time - startTime a) / durationMs a)%js 1 <? 1)%js;
    simpl; symmetry; apply surjective_pairing.
Qed.

(** C8: the easing of every animation tick is the ease-in-out cubic:
    [animate] interpolates both the camera position and the look-target
    with [eased t], the values that it then hands to [update()]; on
    every real [t], [eased t] is [4t³] below one half and
    [1 − (−2t + 2)³ / 2] from one half on; the two branches agree at the
    join, where both give exactly one half. *)
Theorem C8_ease_in_out_cubic :
  (forall t : R, eased (Fin t) = Fin (easeInOutCubic t)) /\
  (forall t : R, t < 1 / 2 -> eased (Fin t) = Fin (4 * t ^ 3)) /\
  (forall t : R,
      1 / 2 <= t -> eased (Fin t) = Fin (1 - ((- 2 * t + 2) ^ 3) / 2)) /\
  eased (Fin 0.5) = Fin 0.5 /\
  4 * (1 / 2) ^ 3 = 1 / 2 /\
  1 - ((- 2 * (1 / 2) + 2) ^ 3) / 2 = 1 / 2 /\
  (forall (a : Animation) (time : number) (c : Controls),
      let t := Math_min ((time - startTime a) / durationMs a)%js 1 in
      (camera_position (animate a time c), target (animate a time c))
      = orbitControls c (updates c)
          (lerpVectors (startCameraPos a) (targetCameraPos a) (eased t),
           lerpVectors (startTarget a) (targetFocus a) (eased t))).
Proof.
  split; [exact eased_Fin |].
  split.
  { intros t Ht. rewrite eased_Fin. unfold easeInOutCubic. js_dec.
    reflexivity. }
  split.
  { intros t Ht. rewrite eased_Fin. unfold easeInOutCubic. js_dec.
    reflexivity. }
  split.
  { rewrite eased_Fin. unfold easeInOutCubic. js_dec. f_equal. lra. }
  split; [lra |].
  split; [lra |].
  exact animate_camera_position.
Qed.

End Easing.

(** ** The in-place loop over the bodies *)

Section ForEach.

Variable f : list Mesh -> Mesh -> list Mesh -> Mesh.

(** The bodies already visited are not touched again. *)
Lemma forEach_prefix (todo : list Mesh) :
  forall done,
    exists l, forEach f done todo = done ++ l /\ length l = length todo.
Proof.
  induction todo as [| p todo IH]; intros done; simpl.
  - exists []. rewrite app_nil_r. split; reflexivity.
  - destruct (IH (done ++ [f done p todo])) as [l [Hl Hlen]].
    exists (f done p todo :: l). rewrite Hl, <- app_assoc. simpl.
    split; [reflexivity | now rewrite Hlen].
Qed.

Lemma forEach_length (todo done : list Mesh) :
  length (forEach f done todo) = (length done + length todo)%nat.
Proof.
  destruct (forEach_prefix todo done) as [l [Hl Hlen]].
  rewrite Hl, length_app, Hlen. reflexivity.
Qed.

(** The body [p] is updated when the array holds the updated bodies
    [before] that precede it, then [p], then the untouched [post]. *)
Lemma forEach_split (pre post : list Mesh) (p : Mesh) :
  forall done,
    exists before rest,
      forEach f done (pre ++ p :: post) = before ++ f before p post :: rest /\
      length before = (length done + length pre)%nat.
Proof.
  induction pre as [| q pre IH]; intros done; simpl.
  - destruct (forEach_prefix post (done ++ [f done p post])) as [l [Hl _]].
    exists done, l. rewrite Hl, <- app_assoc. simpl.
    split; [reflexivity | lia].
  - destruct (IH (done ++ [f done q (pre ++ p :: post)]))
      as [before [rest [E Hlen]]].
    exists before, rest. split; [exact E |].
    rewrite Hlen, length_app. simpl. lia.
Qed.

(** A loop whose every step finds nothing to change returns the array. *)
Lemma forEach_fixed (todo : list Mesh) :
  forall done,
    (forall pre p post,
        todo = pre ++ p :: post -> f (done ++ pre) p post = p) ->
    forEach f done todo = done ++ todo.
Proof.
  induction todo as [| q todo IH]; intros done H; simpl.
  - now rewrite app_nil_r.
  - assert (Hq : f done q todo = q).
    { specialize (H [] q todo eq_refl). now rewrite app_nil_r in H. }
    rewrite Hq, IH.
    + now rewrite <- app_assoc.
    + intros pre p post E. rewrite <- app_assoc. simpl.
      apply (H (q :: pre)). simpl. now rewrite E.
Qed.

End ForEach.

(** ** Lookup by id *)

Section Lookup.

Lemma getPlanetById_None (l : list Mesh) (id : string) :
  getPlanetById l id = None <-> ~ In id (ids l).
Proof.
  unfold getPlanetById. induction l as [| p l IH]; simpl.
  - tauto.
  - destruct (String.eqb_spec (UserData.id (userData p)) id) as [E | E].
    + split; [discriminate | intros H; exfalso; apply H; now left].
    + rewrite IH. tauto.
Qed.

Lemma getPlanetById_same_ids (l1 l2 : list Mesh) (id : string) :
  ids l1 = ids l2 ->
  getPlanetById l1 id = None -> getPlanetById l2 id = None.
Proof.
  intros E H. apply getPlanetById_None. rewrite <- E.
  now apply getPlanetById_None.
Qed.

Lemma getPlanetById_app (l1 l2 : list Mesh) (id : string) (p : Mesh) :
  getPlanetById l1 id = Some p -> getPlanetById (l1 ++ l2) id = Some p.
Proof.
  unfold getPlanetById. induction l1 as [| q l1 IH]; simpl; [discriminate |].
  destruct (String.eqb (UserData.id (userData q)) id); auto.
Qed.

Lemma ids_app (l1 l2 : list Mesh) : ids (l1 ++ l2) = ids l1 ++ ids l2.
Proof. apply map_app. Qed.

Lemma app_same_length {A : Type} (l1 l2 r1 r2 : list A) :
  length l1 = length l2 -> l1 ++ r1 = l2 ++ r2 -> l1 = l2.
Proof.
  revert l2. induction l1 as [| a l1 IH]; intros [| b l2] Hlen E;
    simpl in *; try discriminate; [reflexivity |].
  injection E as Hab E. injection Hlen as Hlen.
  f_equal; [exact Hab | now apply IH].
Qed.

End Lookup.

(** ** One frame *)

Section Frame.

Variables deltaTime speed : number.

Lemma rotate_userData (p : Mesh) :
  userData (rotate deltaTime speed p) = userData p.
Proof. reflexivity. Qed.

Lemma updatePlanet_id (before after : list Mesh) (p : Mesh) :
  UserData.id (userData (updatePlanet deltaTime speed before p after))
  = UserData.id (userData p).
Proof.
  unfold updatePlanet.
  destruct (UserData.isStar (userData p)); [reflexivity |].
  rewrite rotate_userData.
  destruct (UserData.isSatellite (userData p)
            && truthy_string (UserData.parent (userData p)));
    [| reflexivity].
  destruct (UserData.parent (userData p)) as [parent |]; [| reflexivity].
  destruct (getPlanetById _ parent); reflexivity.
Qed.

Lemma forEach_ids (todo : list Mesh) :
  forall done,
    ids (forEach (updatePlanet deltaTime speed) done todo)
    = ids done ++ ids todo.
Proof.
  induction todo as [| p todo IH]; intros done; simpl.
  - now rewrite app_nil_r.
  - rewrite IH, ids_app, <- app_assoc. simpl.
    now rewrite updatePlanet_id.
Qed.

(** What one frame does to the body at index [i]: the callback runs on
    it when the bodies [before] it have been updated and those after it
    have not. *)
Lemma updatePositions_nth (sys : PlanetSystem) (i : nat) (p : Mesh) :
  isPaused sys = false ->
  timeSpeed sys = speed ->
  nth_error (planets sys) i = Some p ->
  exists pre post before rest,
    planets sys = pre ++ p :: post /\
    length pre = i /\
    ids before = ids pre /\
    planets (updatePositions deltaTime sys)
    = before ++ updatePlanet deltaTime speed before p post :: rest /\
    nth_error (planets (updatePositions deltaTime sys)) i
    = Some (updatePlanet deltaTime speed before p post).
Proof.
  intros Hrun Hspeed Hnth.
  destruct (nth_error_split _ _ Hnth) as [pre [post [Hsplit Hlen]]].
  destruct (forEach_split (updatePlanet deltaTime speed) pre post p [])
    as [before [rest [Hrest Hbefore]]].
  simpl in Hbefore.
  exists pre, post, before, rest.
  assert (Hall : planets (updatePositions deltaTime sys)
                 = forEach (updatePlanet deltaTime speed) []
                     (pre ++ p :: post)).
  { unfold updatePositions. rewrite Hrun. simpl.
    now rewrite Hspeed, Hsplit. }
  assert (Hids : ids before = ids pre).
  { pose proof (forEach_ids (pre ++ p :: post) []) as E.
    rewrite Hrest in E. simpl in E. rewrite !ids_app in E.
    apply app_same_length in E; [exact E |].
    unfold ids. now rewrite !length_map. }
  repeat split; try assumption.
  - now rewrite Hall.
  - rewrite Hall, Hrest, nth_error_app2 by lia.
    replace (i - _)%nat with 0%nat by lia. reflexivity.
Qed.

End Frame.

(** ** Pause *)

Section Pause.

Lemma updatePositions_paused (deltaTime : number) (sys : PlanetSystem) :
  isPaused sys = true -> updatePositions deltaTime sys = sys.
Proof. intros H. unfold updatePositions. now rewrite H. Qed.

(** C5: while the system is paused, [updatePositions] returns the system
    as it is, and any number of frames, whatever their deltas and
    whatever the speed set before each, leave the array of bodies (every
    angle, rotation and position) and the pause flag as they were. *)
Theorem C5_paused_frames_change_nothing
    (sys : PlanetSystem) (frames : list (number * number)) :
  isPaused sys = true ->
  (forall deltaTime, updatePositions deltaTime sys = sys) /\
  planets (ticksAtSpeeds frames sys) = planets sys /\
  isPaused (ticksAtSpeeds frames sys) = true.
Proof.
  intros Hp. split; [intros dt; now apply updatePositions_paused |].
  revert sys Hp. unfold ticksAtSpeeds.
  induction frames as [| [speed dt] frames IH]; intros sys Hp; simpl.
  - split; [reflexivity | exact Hp].
  - rewrite updatePositions_paused by exact Hp.
    destruct (IH (setTimeSpeed speed sys) Hp) as [H1 H2].
    split; [exact H1 | exact H2].
Qed.

(** C5 at work: earth alone in a paused system, two frames at speeds 3
    and 0. *)
Lemma C5_paused_frames_witness :
  isPaused (Sample.earthAlone true) = true /\
  planets (ticksAtSpeeds [(Fin 3, Fin 1); (Fin 0, Fin 2)]
             (Sample.earthAlone true))
  = [Sample.earth].
Proof.
  split; [reflexivity |].
  exact (proj1 (proj2 (C5_paused_frames_change_nothing
                         (Sample.earthAlone true)
                         [(Fin 3, Fin 1); (Fin 0, Fin 2)] eq_refl))).
Defined.

End Pause.

(** ** The rate law *)

Section RateLaw.

(** A body that takes the planet branch of the callback. *)
Lemma updatePlanet_planet (deltaTime timeSpeed : number)
    (before after : list Mesh) (p : Mesh) :
  UserData.isStar (userData p) = false ->
  UserData.isSatellite (userData p) = false ->
  updatePlanet deltaTime timeSpeed before p after
  = let q := advanceAngle deltaTime timeSpeed (rotate deltaTime timeSpeed p) in
    with_position
      {| x := (UserData.orbitalRadius (userData q)
               * Math_cos (UserData.currentAngle (userData q)))%js;
         y := y (position q);
         z := (UserData.orbitalRadius (userData q)
               * Math_sin (UserData.currentAngle (userData q)))%js |}
      q.
Proof.
  intros Hstar Hsat. unfold updatePlanet.
  rewrite Hstar, rotate_userData, Hsat. reflexivity.
Qed.

(** One frame adds [(2π / (orbitalPeriod × 86400)) × deltaTime ×
    timeSpeed × 86400] to the angle of a planet. *)
Lemma planet_angle_step (deltaTime : number) (sys : PlanetSystem)
    (i : nat) (p : Mesh) :
  isPaused sys = false ->
  nth_error (planets sys) i = Some p ->
  UserData.isStar (userData p) = false ->
  UserData.isSatellite (userData p) = false ->
  exists p',
    nth_error (planets (updatePositions deltaTime sys)) i = Some p' /\
    UserData.isStar (userData p') = false /\
    UserData.isSatellite (userData p') = false /\
    UserData.orbitalPeriod (userData p')
    = UserData.orbitalPeriod (userData p) /\
    UserData.currentAngle (userData p')
    = (UserData.currentAngle (userData p)
       + (2 * Math_PI / (UserData.orbitalPeriod (userData p) * 86400))
         * deltaTime * timeSpeed sys * 86400)%js.
Proof.
  intros Hrun Hnth Hstar Hsat.
  destruct (updatePositions_nth deltaTime (timeSpeed sys) sys i p
              Hrun eq_refl Hnth)
    as [pre [post [before [rest [_ [_ [_ [_ Hres]]]]]]]].
  rewrite updatePlanet_planet in Hres by assumption.
  eexists. split; [exact Hres |]. simpl. repeat split; assumption.
Qed.

Lemma updatePositions_flags (deltaTime : number) (sys : PlanetSystem) :
  isPaused (updatePositions deltaTime sys) = isPaused sys /\
  timeSpeed (updatePositions deltaTime sys) = timeSpeed sys.
Proof.
  unfold updatePositions. destruct (isPaused sys) eqn:E; simpl; auto.
Qed.

(** At speed 1, a planet with a period of 365.25 days advances by
    [2π × d / 365.25] over frames whose deltas sum to [d]. *)
Lemma year_angle (deltas : list R) :
  forall (sys : PlanetSystem) (i : nat) (p : Mesh) (a0 : R),
    isPaused sys = false ->
    timeSpeed sys = Fin 1 ->
    nth_error (planets sys) i = Some p ->
    UserData.isStar (userData p) = false ->
    UserData.isSatellite (userData p) = false ->
    UserData.orbitalPeriod (userData p) = Fin 365.25 ->
    UserData.currentAngle (userData p) = Fin a0 ->
    exists p',
      nth_error (planets (ticks (map Fin deltas) sys)) i = Some p' /\
      UserData.currentAngle (userData p')
      = Fin (a0 + 2 * PI * Rsum deltas / 365.25).
Proof.
  unfold ticks.
  induction deltas as [| d deltas IH];
    intros sys i p a0 Hrun Hspeed Hnth Hstar Hsat Hperiod Hangle; simpl.
  - exists p. split; [exact Hnth |]. rewrite Hangle. f_equal. lra.
  - destruct (planet_angle_step (Fin d) sys i p Hrun Hnth Hstar Hsat)
      as [p1 [Hnth1 [Hstar1 [Hsat1 [Hperiod1 Hangle1]]]]].
    destruct (updatePositions_flags (Fin d) sys) as [Hrun1 Hspeed1].
    rewrite Hperiod, Hangle, Hspeed in Hangle1.
    assert (Hstep : UserData.currentAngle (userData p1)
                    = Fin (a0 + 2 * PI * d / 365.25)).
    { rewrite Hangle1. simpl. js_dec. f_equal. field; lra. }
    destruct (IH (updatePositions (Fin d) sys) i p1
                (a0 + 2 * PI * d / 365.25))
      as [p' [Hnth' Hangle']]; try congruence.
    exists p'. split; [exact Hnth' |]. rewrite Hangle'. f_equal. simpl.
    field; lra.
Qed.

(** C2: rate law.  In a running system each frame adds
    [(2π / (orbitalPeriod × 86400)) × deltaTime × timeSpeed × 86400] to a
    planet's [currentAngle]; so at [timeSpeed = 1] a planet with
    [orbitalPeriod = 365.25] whose frames' deltas sum to 365.25 has
    advanced by exactly [2π]. *)
Theorem C2_one_orbit_per_year
    (sys : PlanetSystem) (i : nat) (p : Mesh) (a0 : R) (deltas : list R) :
  isPaused sys = false ->
  timeSpeed sys = Fin 1 ->
  nth_error (planets sys) i = Some p ->
  UserData.isStar (userData p) = false ->
  UserData.isSatellite (userData p) = false ->
  UserData.orbitalPeriod (userData p) = Fin 365.25 ->
  UserData.currentAngle (userData p) = Fin a0 ->
  Rsum deltas = 365.25 ->
  (forall deltaTime,
      exists p1,
        nth_error (planets (updatePositions deltaTime sys)) i = Some p1 /\
        UserData.currentAngle (userData p1)
        = (UserData.currentAngle (userData p)
           + (2 * Math_PI / (UserData.orbitalPeriod (userData p) * 86400))
             * deltaTime * timeSpeed sys * 86400)%js) /\
  exists p',
    nth_error (planets (ticks (map Fin deltas) sys)) i = Some p' /\
    UserData.currentAngle (userData p') = Fin (a0 + 2 * PI).
Proof.
  intros Hrun Hspeed Hnth Hstar Hsat Hperiod Hangle Hsum. split.
  - intros dt.
    destruct (planet_angle_step dt sys i p Hrun Hnth Hstar Hsat)
      as [p1 [Hnth1 [_ [_ [_ Hangle1]]]]].
    exists p1. split; assumption.
  - destruct (year_angle deltas sys i p a0) as [p' [Hnth' Hangle']];
      try assumption.
    exists p'. split; [exact Hnth' |]. rewrite Hangle', Hsum. f_equal.
    field; lra.
Qed.

(** C2 at work: earth alone, three frames of 100, 200 and 65.25
    seconds. *)
Lemma C2_one_orbit_witness :
  exists p',
    nth_error
      (planets (ticks (map Fin [100; 200; 65.25]) (Sample.earthAlone false)))
      0 = Some p' /\
    UserData.currentAngle (userData p') = Fin (0 + 2 * PI).
Proof.
  refine (proj2 (C2_one_orbit_per_year (Sample.earthAlone false) 0
                   Sample.earth 0 [100; 200; 65.25]
                   eq_refl eq_refl eq_refl eq_refl eq_refl eq_refl eq_refl _)).
  unfold Rsum. simpl. lra.
Defined.

End RateLaw.

(** ** Satellites *)

Section Satellites.

Variables deltaTime speed : number.

Lemma truthy_string_Some (s : string) :
  s <> EmptyString -> truthy_string (Some s) = true.
Proof.
  intros H. simpl.
  destruct (String.eqb_spec s EmptyString); [contradiction | reflexivity].
Qed.

(** A satellite whose parent is found is put on its orbit around the
    parent's position as the array holds it at that moment. *)
Lemma updatePlanet_satellite_found (before after : list Mesh) (s : Mesh)
    (parent : string) (parentPlanet : Mesh) :
  UserData.isStar (userData s) = false ->
  UserData.isSatellite (userData s) = true ->
  UserData.parent (userData s) = Some parent ->
  parent <> EmptyString ->
  getPlanetById (before ++ rotate deltaTime speed s :: after) parent
  = Some parentPlanet ->
  let s' := updatePlanet deltaTime speed before s after in
  userData s' = userData (advanceAngle deltaTime speed s) /\
  onOrbit (position parentPlanet) s'.
Proof.
  intros Hstar Hsat Hparent Hne Hfind. unfold updatePlanet.
  rewrite Hstar, rotate_userData, Hsat, Hparent, truthy_string_Some
    by exact Hne.
  simpl andb. cbv iota. rewrite Hfind.
  split; reflexivity.
Qed.

(** A satellite whose parent is not found only rotates. *)
Lemma updatePlanet_satellite_lost (before after : list Mesh) (s : Mesh)
    (parent : string) :
  UserData.isStar (userData s) = false ->
  UserData.isSatellite (userData s) = true ->
  UserData.parent (userData s) = Some parent ->
  parent <> EmptyString ->
  getPlanetById (before ++ rotate deltaTime speed s :: after) parent
  = None ->
  updatePlanet deltaTime speed before s after
  = rotate deltaTime speed s.
Proof.
  intros Hstar Hsat Hparent Hne Hfind. unfold updatePlanet.
  rewrite Hstar, rotate_userData, Hsat, Hparent, truthy_string_Some
    by exact Hne.
  simpl andb. cbv iota. now rewrite Hfind.
Qed.

(** On an orbit of radius [r >= 0] around a finite centre, at a finite
    angle, the distance to the centre is [r]. *)
Lemma onOrbit_distance (center : Vector3) (p : Mesh) (r a : R) :
  onOrbit center p ->
  finiteV center ->
  UserData.orbitalRadius (userData p) = Fin r ->
  UserData.currentAngle (userData p) = Fin a ->
  0 <= r ->
  distanceTo (position p) center = Fin r.
Proof.
  unfold onOrbit, finiteV. intros Horbit [Hx [Hy Hz]] Hr Ha Hpos.
  apply finite_Fin in Hx as [cx Hx].
  apply finite_Fin in Hy as [cy Hy].
  apply finite_Fin in Hz as [cz Hz].
  unfold distanceTo. rewrite Horbit, Hr, Ha, Hx, Hy, Hz. simpl.
  assert (E : (cx + r * cos a + - cx) * (cx + r * cos a + - cx)
              + (cy + - cy) * (cy + - cy)
              + (cz + r * sin a + - cz) * (cz + r * sin a + - cz)
              = r * r).
  { pose proof (sin2_cos2 a) as H. unfold Rsqr in H.
    transitivity (r * r * (sin a * sin a + cos a * cos a)); [ring |].
    rewrite H. ring. }
  rewrite E. destruct (Rlt_dec (r * r) 0) as [Hneg | _].
  - exfalso. pose proof (Rle_0_sqr r) as H. unfold Rsqr in H. lra.
  - f_equal. now apply sqrt_square.
Qed.

End Satellites.

Section SatelliteFrames.

(** C1, as the code has it: the bodies are visited in array order.  In a
    running system, a satellite whose parent is resolved among the bodies
    that precede it in the array gets, in every frame, the angle advanced
    by the rate law and the position [parent.position + orbitalRadius ×
    (cos, 0, sin)(currentAngle)] with the parent's position as it is
    after this frame; for finite values and a radius [r >= 0] the
    distance between the two positions after the frame is [r]. *)
Theorem C1_satellite_follows_preceding_parent
    (deltaTime : number) (sys : PlanetSystem) (i : nat) (s : Mesh)
    (parent : string) :
  isPaused sys = false ->
  nth_error (planets sys) i = Some s ->
  UserData.isStar (userData s) = false ->
  UserData.isSatellite (userData s) = true ->
  UserData.parent (userData s) = Some parent ->
  parent <> EmptyString ->
  getPlanetById (firstn i (planets sys)) parent <> None ->
  exists s' parentPlanet,
    nth_error (planets (updatePositions deltaTime sys)) i = Some s' /\
    getPlanetById (planets (updatePositions deltaTime sys)) parent
    = Some parentPlanet /\
    userData s' = userData (advanceAngle deltaTime (timeSpeed sys) s) /\
    onOrbit (position parentPlanet) s' /\
    (forall r a : R,
        finiteV (position parentPlanet) ->
        UserData.orbitalRadius (userData s') = Fin r ->
        UserData.currentAngle (userData s') = Fin a ->
        0 <= r ->
        distanceTo (position s') (position parentPlanet) = Fin r).
Proof.
  intros Hrun Hnth Hstar Hsat Hparent Hne Hprec.
  destruct (updatePositions_nth deltaTime (timeSpeed sys) sys i s
              Hrun eq_refl Hnth)
    as [pre [post [before [rest [Hsplit [Hlen [Hids [Hall Hres]]]]]]]].
  assert (Hpre : firstn i (planets sys) = pre).
  { rewrite Hsplit, <- Hlen, firstn_app, Nat.sub_diag, firstn_all. simpl.
    apply app_nil_r. }
  rewrite Hpre in Hprec.
  destruct (getPlanetById before parent) as [parentPlanet |] eqn:Hfind.
  2:{ exfalso. apply Hprec.
      apply (getPlanetById_same_ids before pre); assumption. }
  destruct (updatePlanet_satellite_found deltaTime (timeSpeed sys)
              before post s parent parentPlanet)
    as [Hud Horbit]; try assumption.
  { now apply getPlanetById_app. }
  exists (updatePlanet deltaTime (timeSpeed sys) before s post), parentPlanet.
  split; [exact Hres |].
  split; [rewrite Hall; now apply getPlanetById_app |].
  split; [exact Hud |].
  split; [exact Horbit |].
  intros r a Hfin Hr Ha Hpos.
  now apply (onOrbit_distance _ _ r a).
Qed.

End SatelliteFrames.

Section SatelliteCases.

Lemma quarter_turn : 0 + 2 * PI / (4 * 86400) * 1 * 1 * 86400 = PI / 2.
Proof. field. Qed.

(** C1 at work: the planet listed before its moon, one frame of one
    second. *)
Lemma C1_satellite_follows_witness :
  exists s' parentPlanet,
    nth_error (planets (updatePositions 1 Sample.planetFirst)) 1 = Some s' /\
    getPlanetById (planets (updatePositions 1 Sample.planetFirst)) "earth"
    = Some parentPlanet /\
    onOrbit (position parentPlanet) s' /\
    distanceTo (position s') (position parentPlanet) = Fin 5.
Proof.
  destruct (C1_satellite_follows_preceding_parent 1 Sample.planetFirst 1
              Sample.moon4 "earth" eq_refl eq_refl eq_refl eq_refl eq_refl
              ltac:(discriminate) ltac:(discriminate))
    as [s' [parentPlanet [H1 [H2 [H3 [H4 H5]]]]]].
  exists s', parentPlanet.
  split; [exact H1 |]. split; [exact H2 |]. split; [exact H4 |].
  apply (H5 5 (PI / 2)).
  - unfold updatePositions in H2. simpl in H2. unfold updatePlanet in H2.
    simpl in H2. revert H2. js_dec. intros H2. injection H2 as <-.
    simpl. repeat split.
  - rewrite H3. reflexivity.
  - rewrite H3. simpl. js_dec. f_equal. apply quarter_turn.
  - lra.
Defined.

Lemma moonFirst_frame :
  planets (updatePositions 1 Sample.moonFirst)
  = [with_position (vec3 150 0 5)
       (advanceAngle 1 1 (rotate 1 1 Sample.moon4));
     with_position (vec3 0 0 150)
       (advanceAngle 1 1 (rotate 1 1 Sample.planet4))].
Proof.
  unfold updatePositions, Sample.moonFirst. simpl.
  unfold updatePlanet. simpl. js_dec.
  rewrite quarter_turn, cos_PI2, sin_PI2.
  repeat f_equal; lra.
Qed.

(** C1 as stated fails when the satellite is listed before its parent:
    the moon is placed around the position its planet had before the
    frame, [(150, 0, 0)], while the planet then moves to [(0, 0, 150)];
    after the frame the moon is not on its orbit around the planet and
    its distance to the planet is not its orbital radius 5. *)
Lemma C1_moon_listed_first_trails_planet :
  exists s' parentPlanet,
    planets (updatePositions 1 Sample.moonFirst) = [s'; parentPlanet] /\
    UserData.parent (userData s') = Some "earth" /\
    UserData.orbitalRadius (userData s') = Fin 5 /\
    getPlanetById (planets (updatePositions 1 Sample.moonFirst)) "earth"
    = Some parentPlanet /\
    position s' = vec3 150 0 5 /\
    position parentPlanet = vec3 0 0 150 /\
    ~ onOrbit (position parentPlanet) s' /\
    distanceTo (position s') (position parentPlanet) <> Fin 5.
Proof.
  rewrite moonFirst_frame. do 2 eexists.
  split; [reflexivity |].
  split; [reflexivity |].
  split; [reflexivity |].
  split; [reflexivity |].
  split; [reflexivity |].
  split; [reflexivity |].
  split.
  - unfold onOrbit. simpl. js_dec. rewrite quarter_turn, cos_PI2.
    intros H. injection H as Hx _. lra.
  - unfold distanceTo. simpl.
    destruct (Rlt_dec _ 0) as [Hneg | Hpos]; [discriminate |].
    intros H. apply Fin_inj in H.
    pose proof (sqrt_sqrt _ (Rge_le _ _ (Rnot_lt_ge _ _ Hpos))) as Hs.
    rewrite H in Hs. lra.
Qed.

(** C7, as the code has it: the guard [if (parentPlanet)] has no else
    branch.  In a running system a satellite whose parent id matches no
    body is rotated on its axis and otherwise left as it was: its
    [currentAngle] and [position] keep the values of the previous frame,
    and the frame completes for all bodies. *)
Theorem C7_unresolved_parent_is_skipped
    (deltaTime : number) (sys : PlanetSystem) (i : nat) (s : Mesh)
    (parent : string) :
  isPaused sys = false ->
  nth_error (planets sys) i = Some s ->
  UserData.isStar (userData s) = false ->
  UserData.isSatellite (userData s) = true ->
  UserData.parent (userData s) = Some parent ->
  parent <> EmptyString ->
  getPlanetById (planets sys) parent = None ->
  exists s',
    nth_error (planets (updatePositions deltaTime sys)) i = Some s' /\
    s' = rotate deltaTime (timeSpeed sys) s /\
    UserData.currentAngle (userData s') = UserData.currentAngle (userData s) /\
    position s' = position s /\
    length (planets (updatePositions deltaTime sys)) = length (planets sys).
Proof.
  intros Hrun Hnth Hstar Hsat Hparent Hne Hlost.
  destruct (updatePositions_nth deltaTime (timeSpeed sys) sys i s
              Hrun eq_refl Hnth)
    as [pre [post [before [rest [Hsplit [Hlen [Hids [Hall Hres]]]]]]]].
  assert (Hfind : getPlanetById
                    (before ++ rotate deltaTime (timeSpeed sys) s :: post)
                    parent = None).
  { apply (getPlanetById_same_ids (planets sys)); [| exact Hlost].
    rewrite Hsplit, !ids_app, Hids. reflexivity. }
  rewrite (updatePlanet_satellite_lost deltaTime (timeSpeed sys)
             before post s parent Hstar Hsat Hparent Hne Hfind) in Hres.
  eexists. split; [exact Hres |].
  repeat split.
  unfold updatePositions. rewrite Hrun. simpl.
  apply (forEach_length _ (planets sys) []).
Qed.

(** C7 at work: the moon alone, its parent "earth" not in the system. *)
Lemma C7_unresolved_parent_witness :
  exists s',
    nth_error (planets (updatePositions 1 Sample.moonAlone)) 0 = Some s' /\
    position s' = position Sample.moon4.
Proof.
  destruct (C7_unresolved_parent_is_skipped 1 Sample.moonAlone 0
              Sample.moon4 "earth" eq_refl eq_refl eq_refl eq_refl eq_refl
              ltac:(discriminate) eq_refl)
    as [s' [H1 [_ [_ [H4 _]]]]].
  exists s'. split; assumption.
Defined.

(** C7 as stated fails: with the moon's parent "earth" absent from the
    system, the frame raises nothing; it returns the system with the moon
    at its old angle 0 and old position [(155, 0, 0)]. *)
Lemma C7_moon_without_earth_keeps_stale_position :
  exists s',
    getPlanetById (planets Sample.moonAlone) "earth" = None /\
    planets (updatePositions 1 Sample.moonAlone) = [s'] /\
    UserData.currentAngle (userData s') = Fin 0 /\
    position s' = vec3 155 0 0.
Proof.
  exists (rotate 1 1 Sample.moon4).
  split; [reflexivity |].
  split; [reflexivity |].
  split; reflexivity.
Qed.

End SatelliteCases.

(** ** Zero speed *)

Section ZeroSpeed.

Lemma add_Fin_zero (a : number) (r : R) : r = 0 -> (a + Fin r)%js = a.
Proof. intros ->. apply add_zero_r. Qed.

Lemma onSpeedInput_zero (sys : PlanetSystem) :
  onSpeedInput 0 sys = setTimeSpeed (Fin 0) sys.
Proof.
  unfold onSpeedInput. f_equal. simpl. js_dec. f_equal. lra.
Qed.

Lemma rotate_zero (dt : R) (p : Mesh) :
  nonzero (UserData.rotationPeriod (userData p)) ->
  rotate (Fin dt) (Fin 0) p = p.
Proof.
  intros [rp [E Hrp]]. unfold rotate. rewrite E. simpl. js_dec.
  rewrite add_Fin_zero by lra. now destruct p.
Qed.

Lemma advanceAngle_zero (dt : R) (p : Mesh) :
  nonzero (UserData.orbitalPeriod (userData p)) ->
  advanceAngle (Fin dt) (Fin 0) p = p.
Proof.
  intros [op [E Hop]]. unfold advanceAngle. rewrite E. simpl. js_dec.
  rewrite add_Fin_zero by lra. destruct p as [[] ? ? ?]. reflexivity.
Qed.

(** At zero speed the callback returns a body at rest as it is. *)
Lemma updatePlanet_zero (dt : R) (before after : list Mesh) (p : Mesh) :
  atRest (before ++ p :: after) p ->
  updatePlanet (Fin dt) (Fin 0) before p after = p.
Proof.
  intros [Hrot Hrest]. unfold updatePlanet.
  rewrite (rotate_zero dt p Hrot).
  destruct (UserData.isStar (userData p)); [reflexivity |].
  specialize (Hrest eq_refl).
  destruct (UserData.isSatellite (userData p)
            && truthy_string (UserData.parent (userData p))).
  - destruct (UserData.parent (userData p)) as [parent |]; [| reflexivity].
    destruct (getPlanetById (before ++ p :: after) parent)
      as [parentPlanet |]; [| reflexivity].
    destruct Hrest as [Horb Hpos].
    rewrite (advanceAngle_zero dt p Horb).
    unfold onOrbit in Hpos. rewrite <- Hpos. now destruct p.
  - destruct Hrest as [Horb [Hx Hz]].
    rewrite (advanceAngle_zero dt p Horb).
    rewrite <- Hx, <- Hz. destruct p as [u [px py pz] r rad]. reflexivity.
Qed.

(** At zero speed the callback leaves the angle and the rotation of a
    body as they are, when the periods it divides by are finite and not
    zero. *)
Lemma updatePlanet_zero_angles (dt : R) (before after : list Mesh)
    (p : Mesh) :
  nonzero (UserData.rotationPeriod (userData p)) ->
  (UserData.isStar (userData p) = false ->
   nonzero (UserData.orbitalPeriod (userData p))) ->
  userData (updatePlanet (Fin dt) (Fin 0) before p after) = userData p /\
  rotation_y (updatePlanet (Fin dt) (Fin 0) before p after) = rotation_y p.
Proof.
  intros Hrot Horb. unfold updatePlanet.
  rewrite (rotate_zero dt p Hrot).
  destruct (UserData.isStar (userData p)); [split; reflexivity |].
  specialize (Horb eq_refl).
  destruct (UserData.isSatellite (userData p)
            && truthy_string (UserData.parent (userData p))).
  - destruct (UserData.parent (userData p)) as [parent |];
      [| split; reflexivity].
    destruct (getPlanetById (before ++ p :: after) parent);
      [| split; reflexivity].
    rewrite (advanceAngle_zero dt p Horb). split; reflexivity.
  - rewrite (advanceAngle_zero dt p Horb). split; reflexivity.
Qed.

(** C10, as the code has it: a frame at [timeSpeed = 0] (the slider at
    its minimum) with a finite delta leaves the [currentAngle] and the
    rotation of every body whose periods are finite and not zero as they
    were; the positions are written anew, so the frame returns the whole
    system unchanged when every body is at rest: every planet on its
    circle at its angle, every satellite with a resolved parent on its
    orbit around the parent's position. *)
Theorem C10_zero_speed_keeps_bodies_at_rest
    (dt : R) (sys : PlanetSystem) :
  isPaused sys = false ->
  (forall i p,
      nth_error (planets sys) i = Some p ->
      nonzero (UserData.rotationPeriod (userData p)) ->
      (UserData.isStar (userData p) = false ->
       nonzero (UserData.orbitalPeriod (userData p))) ->
      exists p',
        nth_error (planets (updatePositions (Fin dt) (onSpeedInput 0 sys))) i
        = Some p' /\
        userData p' = userData p /\
        rotation_y p' = rotation_y p) /\
  ((forall p, In p (planets sys) -> atRest (planets sys) p) ->
   updatePositions (Fin dt) (onSpeedInput 0 sys) = onSpeedInput 0 sys).
Proof.
  intros Hrun. rewrite onSpeedInput_zero. split.
  - intros i p Hnth Hrot Horb.
    destruct (updatePositions_nth (Fin dt) (Fin 0)
                (setTimeSpeed (Fin 0) sys) i p Hrun eq_refl Hnth)
      as [pre [post [before [rest [_ [_ [_ [_ Hres]]]]]]]].
    eexists. split; [exact Hres |].
    now apply updatePlanet_zero_angles.
  - intros Hrest.
    unfold updatePositions, setTimeSpeed. simpl. rewrite Hrun. f_equal.
    apply (forEach_fixed _ (planets sys) []).
    intros pre p post E. simpl. apply updatePlanet_zero.
    rewrite <- E. apply Hrest. rewrite E. apply in_elt.
Qed.

Lemma settled_atRest :
  forall p, In p (planets Sample.settled) -> atRest (planets Sample.settled) p.
Proof.
  intros p [<- | [<- | []]]; unfold atRest; simpl.
  - split; [exists 24; split; [reflexivity | lra] |].
    intros _. split; [exists 365.25; split; [reflexivity | lra] |].
    rewrite cos_0, sin_0. split; f_equal; lra.
  - split; [exists 655.7; split; [reflexivity | lra] |].
    intros _. split; [exists 27.3; split; [reflexivity | lra] |].
    unfold onOrbit. simpl. rewrite cos_0, sin_0. f_equal; f_equal; lra.
Qed.

(** C10 at work: earth and moon at rest, the slider at 0, one frame of
    one second. *)
Lemma C10_zero_speed_witness :
  updatePositions (Fin 1) (onSpeedInput 0 Sample.settled)
  = onSpeedInput 0 Sample.settled.
Proof.
  exact (proj2 (C10_zero_speed_keeps_bodies_at_rest 1 Sample.settled
                  eq_refl) settled_atRest).
Defined.

Lemma fresh_planets :
  planets Sample.fresh
  = [Sample.body "earth" (1 * 50) 365.25 24 (0 * PI * 2) false None
       (vec3 (1 * 50 * cos (0 * PI * 2)) 0 (1 * 50 * sin (0 * PI * 2)));
     mkMesh
       (userData
          (Sample.body "moon" 5 27.3 655.7 (0 * PI * 2) true (Some "earth")
             (vec3 0 0 0)))
       (vec3 0 0 0) 0 0.27].
Proof.
  unfold Sample.fresh, Sample.body. simpl. unfold createPlanet. simpl.
  unfold or_else. simpl. js_dec. reflexivity.
Qed.

Lemma updatePositions_at_speed (deltaTime speed : number)
    (sys : PlanetSystem) :
  isPaused sys = false ->
  planets (updatePositions deltaTime (setTimeSpeed speed sys))
  = forEach (updatePlanet deltaTime speed) [] (planets sys).
Proof. intros H. unfold updatePositions. simpl. now rewrite H. Qed.

(** C10 as stated fails for a satellite that is not yet on its orbit:
    right after [createPlanet] the moon is at the origin, and the first
    frame, run with the slider at 0, moves it to [(55, 0, 0)] next to the
    earth. *)
Lemma C10_zero_speed_moves_new_moon :
  let sys := onSpeedInput 0 Sample.fresh in
  isPaused sys = false /\
  timeSpeed sys = Fin 0 /\
  exists m m',
    nth_error (planets sys) 1 = Some m /\
    nth_error (planets (updatePositions 1 sys)) 1 = Some m' /\
    UserData.id (userData m) = "moon" /\
    UserData.id (userData m') = "moon" /\
    position m = vec3 0 0 0 /\
    position m' = vec3 55 0 0.
Proof.
  intros sys. subst sys. rewrite onSpeedInput_zero.
  split; [reflexivity |]. split; [reflexivity |].
  rewrite updatePositions_at_speed by reflexivity.
  change (planets (setTimeSpeed (Fin 0) Sample.fresh))
    with (planets Sample.fresh).
  rewrite fresh_planets.
  do 2 eexists. simpl.
  split; [reflexivity |].
  unfold updatePlanet. simpl. js_dec.
  split; [reflexivity |].
  split; [reflexivity |].
  split; [reflexivity |].
  split; [reflexivity |].
  replace (0 * PI * 2 + 2 * PI / (365.25 * 86400) * 1 * 0 * 86400)
    with 0 by (field; lra).
  replace (0 * PI * 2 + 2 * PI / (27.3 * 86400) * 1 * 0 * 86400)
    with 0 by (field; lra).
  rewrite cos_0, sin_0. simpl. f_equal; apply f_equal; lra.
Qed.

End ZeroSpeed.

(** ** Camera animation *)

Section Animation.

Lemma lerpVectors_one (v1 v2 : Vector3) :
  finiteV v1 -> finiteV v2 -> lerpVectors v1 v2 (Fin 1) = v2.
Proof.
  intros [H1x [H1y H1z]] [H2x [H2y H2z]].
  destruct v1 as [x1 y1 z1], v2 as [x2 y2 z2]. simpl in *.
  apply finite_Fin in H1x as [? ->], H1y as [? ->], H1z as [? ->].
  apply finite_Fin in H2x as [? ->], H2y as [? ->], H2z as [? ->].
  unfold lerpVectors. simpl. f_equal; f_equal; lra.
Qed.

Lemma one_le_quotient (a D : R) : 0 < D -> D <= a -> 1 <= a / D.
Proof.
  intros HD Ha. apply (Rmult_le_reg_r D); [exact HD |].
  unfold Rdiv. rewrite Rmult_assoc, Rinv_l by lra. lra.
Qed.

(** Once a positive duration has elapsed the progress is 1. *)
Lemma progress_complete (D s now : R) :
  0 < D -> s + D <= now ->
  Math_min ((Fin now - Fin s) / Fin D)%js 1 = Fin 1.
Proof.
  intros HD Hnow. simpl. js_dec. rewrite Rmin_right; [reflexivity |].
  apply one_le_quotient; lra.
Qed.

(** The tick that ends an animation: [update()] is handed the two
    interpolations at weight 1, the flag is cleared and nothing is
    requested. *)
Lemma animate_after_duration (a : Animation) (c : Controls) (D s now : R) :
  durationMs a = Fin D ->
  startTime a = Fin s ->
  0 < D ->
  s + D <= now ->
  animate a (Fin now) c
  = let placed :=
      orbitControls c (updates c)
        (lerpVectors (startCameraPos a) (targetCameraPos a) (Fin 1),
         lerpVectors (startTarget a) (targetFocus a) (Fin 1)) in
    {| camera_position := fst placed;
       target := snd placed;
       isFocusing := false;
       requested := requested c;
       orbitControls := orbitControls c;
       updates := S (updates c) |}.
Proof.
  intros HD Hs HDpos Hnow. unfold animate.
  rewrite HD, Hs, (progress_complete D s now HDpos Hnow), eased_one.
  rewrite lt_Fin_false by lra. reflexivity.
Qed.

(** C3, as the code has it: [t = Math.min(elapsed / durationMs, 1)] has
    no lower clamp and no guard on the duration, and every tick ends in
    [controls.update()].  For an animation with a finite duration
    [D > 0], a tick at [now >= startTime + D] interpolates with weight
    exactly 1, hands the two interpolations [lastPosition] and
    [lastTarget] to [update()], clears [isFocusing] and requests no
    further frame: the camera position and the look-target after the
    tick are what that call of [update()] makes of them.  For finite
    start and end states the interpolations at weight 1 are the captured
    end states, rounding aside (as reals [a + (b - a) × 1 = b]). *)
Theorem C3_animation_ends_on_end_state
    (a : Animation) (c : Controls) (D s now : R) :
  durationMs a = Fin D ->
  startTime a = Fin s ->
  0 < D ->
  s + D <= now ->
  let lastPosition :=
    lerpVectors (startCameraPos a) (targetCameraPos a) (Fin 1) in
  let lastTarget := lerpVectors (startTarget a) (targetFocus a) (Fin 1) in
  let placed := orbitControls c (updates c) (lastPosition, lastTarget) in
  animate a (Fin now) c
  = {| camera_position := fst placed;
       target := snd placed;
       isFocusing := false;
       requested := requested c;
       orbitControls := orbitControls c;
       updates := S (updates c) |} /\
  (finiteV (startCameraPos a) -> finiteV (targetCameraPos a) ->
   lastPosition = targetCameraPos a) /\
  (finiteV (startTarget a) -> finiteV (targetFocus a) ->
   lastTarget = targetFocus a).
Proof.
  intros HD Hs HDpos Hnow. cbv zeta.
  split; [exact (animate_after_duration a c D s now HD Hs HDpos Hnow) |].
  split; apply lerpVectors_one.
Qed.

(** C3 at work: a reset of 2000 ms started at time 0, and the tick at
    time 2016 while a pan is pending: the tick ends the animation and
    leaves the camera one unit beside the end state, where [update()]
    has put it. *)
Lemma C3_animation_ends_witness :
  animate Sample.forwards (Fin 2016) Sample.busy
  = {| camera_position := vadd (vec3 0 50 100) (vec3 1 0 0);
       target := vadd (vec3 0 0 0) (vec3 1 0 0);
       isFocusing := false;
       requested := [];
       orbitControls := Sample.panning;
       updates := 8 |}.
Proof.
  destruct (C3_animation_ends_on_end_state Sample.forwards Sample.busy
              2000 0 2016 eq_refl eq_refl ltac:(lra) ltac:(lra))
    as [Hends [Hposition Htarget]].
  rewrite Hends.
  rewrite (Hposition (conj I (conj I I)) (conj I (conj I I))).
  rewrite (Htarget (conj I (conj I I)) (conj I (conj I I))).
  reflexivity.
Defined.

(** C3 as stated fails for a negative duration: [resetCamera(-1000)]
    called at time 0, and the frame at time 16.  Then
    [16 >= 0 + (-1000)], yet [t = -0.016 < 1]: the animation stays
    active and the closure is requested again instead of completing. *)
Lemma C3_negative_duration_keeps_animating :
  let started :=
    fst (resetCamera (Some (Fin (-1000))) (Fin 0) Sample.parked) in
  let c := runFrame (Fin 16) started in
  requested started = [Sample.backwards] /\
  0 + -1000 <= 16 /\
  Math_min ((Fin 16 - Fin 0) / Fin (-1000))%js 1 = Fin (-0.016) /\
  isFocusing c = true /\
  requested c = [Sample.backwards].
Proof.
  assert (Ht : Math_min ((Fin 16 - Fin 0) / Fin (-1000))%js 1
               = Fin (-0.016)).
  { simpl. js_dec. rewrite Rmin_left by lra. f_equal. lra. }
  simpl. split; [reflexivity |]. split; [lra |]. split; [exact Ht |].
  unfold runFrame. simpl fold_left.
  unfold animate. simpl startTime. simpl durationMs.
  rewrite Ht, lt_Fin_true by lra.
  split; reflexivity.
Qed.

Lemma focusOnPlanet_requests (planet : Mesh) (D now : number)
    (c : Controls) :
  isFocusing c = false ->
  exists targetCameraPos,
    fst (focusOnPlanet planet (Some D) now c)
    = {| camera_position := camera_position c;
         target := target c;
         isFocusing := true;
         requested :=
           requested c
           ++ [{| startCameraPos := camera_position c;
                  targetCameraPos := targetCameraPos;
                  startTarget := target c;
                  targetFocus := position planet;
                  startTime := now;
                  durationMs := D |}];
         orbitControls := orbitControls c;
         updates := updates c |}.
Proof.
  intros H. unfold focusOnPlanet. rewrite H. eexists. reflexivity.
Qed.

(** C4, as the code has it: both methods start with
    [if (this.isFocusing) return;].  While an animation is active, a call
    of [focusOnPlanet] or [resetCamera] leaves the whole [Controls] state
    as it is (the camera, the flag, and the requested closure with its
    captured end states) and returns [undefined]; nothing is raised. *)
Theorem C4_request_while_focusing_is_dropped
    (planet : Mesh) (durationMs : option number) (now : number)
    (c : Controls) :
  isFocusing c = true ->
  focusOnPlanet planet durationMs now c = (c, undefined) /\
  resetCamera durationMs now c = (c, undefined).
Proof.
  intros H. unfold focusOnPlanet, resetCamera. rewrite H.
  split; reflexivity.
Qed.

(** C4 at work: a reset is running; a focus request and a second reset
    request leave the state as it is. *)
Lemma C4_request_while_focusing_witness :
  let c := fst (resetCamera None (Fin 0) Sample.idle) in
  isFocusing c = true /\
  focusOnPlanet Sample.earth (Some (Fin 2000)) (Fin 5) c = (c, undefined) /\
  resetCamera (Some (Fin 2000)) (Fin 5) c = (c, undefined).
Proof.
  split; [reflexivity |].
  exact (C4_request_while_focusing_is_dropped Sample.earth
           (Some (Fin 2000)) (Fin 5)
           (fst (resetCamera None (Fin 0) Sample.idle)) eq_refl).
Defined.

(** C4 as stated fails on the returned flag: the call that starts an
    animation and the call that is dropped return the same value,
    [undefined]; no returned flag tells the rejection. *)
Lemma C4_dropped_call_returns_no_flag :
  let first := focusOnPlanet Sample.earth (Some (Fin 2000)) (Fin 0)
                 Sample.idle in
  let second := focusOnPlanet Sample.earth (Some (Fin 2000)) (Fin 5)
                  (fst first) in
  isFocusing Sample.idle = false /\
  isFocusing (fst first) = true /\
  fst second = fst first /\
  snd first = undefined /\
  snd second = undefined /\
  snd second = snd first.
Proof. simpl. repeat split; reflexivity. Qed.

End Animation.

(** ** Loading the bodies *)

Section Loading.

Lemma createPlanet_planets (d : PlanetData.t) (u : R) (sys : PlanetSystem) :
  planets (snd (createPlanet d u sys))
  = planets sys ++ [fst (createPlanet d u sys)].
Proof. reflexivity. Qed.

Lemma createPlanet_stored (d : PlanetData.t) (u : R) (sys : PlanetSystem) :
  stored (fst (createPlanet d u sys)) = declared d.
Proof.
  unfold createPlanet, stored, declared. simpl.
  destruct (negb _ && negb _); reflexivity.
Qed.

Lemma createPlanet_angle (d : PlanetData.t) (u : R) (sys : PlanetSystem) :
  UserData.currentAngle (userData (fst (createPlanet d u sys)))
  = Fin (u * PI * 2).
Proof.
  unfold createPlanet. simpl. destruct (negb _ && negb _); reflexivity.
Qed.

Lemma createPlanets_stored (data : list PlanetData.t) (random : nat -> R) :
  forall (first : nat) (sys : PlanetSystem),
    map stored (planets (createPlanets data random first sys))
    = map stored (planets sys) ++ map declared data.
Proof.
  induction data as [| d data IH]; intros first sys.
  - simpl. now rewrite app_nil_r.
  - change (createPlanets (d :: data) random first sys)
      with (createPlanets data random (S first)
              (snd (createPlanet d (random first) sys))).
    rewrite IH, createPlanet_planets, map_app, <- app_assoc.
    change (map declared (d :: data))
      with (declared d :: map declared data).
    cbn [map app]. now rewrite createPlanet_stored.
Qed.

(** C6, as the code has it: nothing validates the descriptors.  Whenever
    the file is fetched, [init] resolves, whatever the descriptors say:
    it creates one body per descriptor, in file order, each storing the
    descriptor's id, orbital period, rotation period and parent as they
    are.  The only failure handled is that of the fetch inside
    [loadPlanetsData], which yields the empty list. *)
Theorem C6_loading_accepts_every_descriptor
    (response1 : option (list PlanetData.t)) (data : list PlanetData.t)
    (random : nat -> R) :
  loadPlanetsData None = [] /\
  exists sys,
    init response1 (Some data) random = Resolved sys /\
    map stored (planets sys) = map declared data /\
    length (planets sys) = length data.
Proof.
  split; [reflexivity |].
  exists (createPlanets data random 0 newPlanetSystem).
  split; [reflexivity |].
  assert (H : map stored
                (planets (createPlanets data random 0 newPlanetSystem))
              = map declared data).
  { now rewrite createPlanets_stored. }
  split; [exact H |].
  apply (f_equal (@length _)) in H. now rewrite !length_map in H.
Qed.

(** C6 as stated fails: a file with a planet of period zero, two
    satellites that name each other as parent and a satellite whose
    parent is not in the file is loaded without any error, the zero
    periods and the parents stored as given; the first frame then turns
    the angle of the planet with period zero into [Infinity] and its
    position into [NaN]. *)
Lemma C6_bad_descriptors_load_without_error :
  let data := [Sample.stalledData; Sample.phobosData; Sample.deimosData;
               Sample.orphanData] in
  exists sys,
    init (Some data) (Some data) (fun _ => 0) = Resolved sys /\
    map stored (planets sys)
    = [("stalled", Fin 0, Fin 0, None);
       ("phobos", Fin 1, Fin 8, Some "deimos");
       ("deimos", Fin 2, Fin 30, Some "phobos");
       ("charon", Fin 6, Fin 153, Some "pluto")] /\
    getPlanetById (planets sys) "pluto" = None /\
    exists p rest,
      planets (updatePositions 1 sys) = p :: rest /\
      UserData.id (userData p) = "stalled" /\
      UserData.currentAngle (userData p) = PInf /\
      x (position p) = NaN.
Proof.
  intros data. eexists. split; [reflexivity |].
  split; [now rewrite createPlanets_stored |].
  split; [reflexivity |].
  unfold updatePositions. simpl isPaused. cbv iota.
  unfold data. simpl createPlanets. simpl planets.
  cbn [forEach app]. do 2 eexists. split; [reflexivity |].
  pose proof PI_RGT_0 as Hpi.
  unfold updatePlanet. simpl. repeat (unfold signed_inf; js_dec).
  repeat split.
Qed.

(** C9, as the code has it: the initial [currentAngle] is
    [Math.random() * Math.PI * 2], a draw made inside [createPlanet] and
    no argument of it.  For one descriptor and one system, two creations
    give the same initial angle exactly when their draws are equal. *)
Theorem C9_initial_angle_is_the_draw
    (d : PlanetData.t) (sys : PlanetSystem) (u1 u2 : R) :
  UserData.currentAngle (userData (fst (createPlanet d u1 sys)))
  = Fin (u1 * PI * 2) /\
  (UserData.currentAngle (userData (fst (createPlanet d u1 sys)))
   = UserData.currentAngle (userData (fst (createPlanet d u2 sys)))
   <-> u1 = u2).
Proof.
  rewrite !createPlanet_angle. split; [reflexivity |]. split.
  - intros H. apply Fin_inj in H. pose proof PI_neq0.
    apply (Rmult_eq_reg_r (PI * 2)); [lra | lra].
  - now intros ->.
Qed.

(** C9 as stated fails: the same descriptor created in the same system
    by two runs, one drawing 0 and one drawing 1/2, starts at angle 0 in
    the first and at angle π in the second. *)
Lemma C9_same_inputs_different_angles :
  let run1 := fst (createPlanet Sample.earthData 0 newPlanetSystem) in
  let run2 := fst (createPlanet Sample.earthData (1 / 2) newPlanetSystem) in
  UserData.currentAngle (userData run1) = Fin (0 * PI * 2) /\
  UserData.currentAngle (userData run2) = Fin (1 / 2 * PI * 2) /\
  UserData.currentAngle (userData run1)
  <> UserData.currentAngle (userData run2).
Proof.
  simpl. split; [reflexivity |]. split; [reflexivity |].
  intros H. apply Fin_inj in H. pose proof PI_neq0. lra.
Qed.

End Loading.

(** * More properties *)

(** ** Frames: scaling, splitting, what stays *)

Section MoreFrames.

Lemma forEach_ext (f g : list Mesh -> Mesh -> list Mesh -> Mesh)
    (todo : list Mesh) :
  (forall before p after, f before p after = g before p after) ->
  forall done, forEach f done todo = forEach g done todo.
Proof.
  intros H. induction todo as [| p todo IH]; intros done; simpl.
  - reflexivity.
  - rewrite H. apply IH.
Qed.

(** A rate times a delta times a speed is the rate times the scaled
    delta: also for an infinite or undefined rate. *)
Lemma scale_exchange (c : number) (dt k : R) :
  (c * Fin dt * Fin k)%js = (c * Fin (k * dt) * Fin 1)%js.
Proof.
  destruct c as [r | | |]; simpl.
  - f_equal. ring.
  - destruct (Rtotal_order dt 0) as [Hd | [Hd | Hd]];
      destruct (Rtotal_order k 0) as [Hk | [Hk | Hk]];
      repeat (unfold signed_inf;
              match goal with
              | |- context [Rlt_dec ?a ?b] =>
                  destruct (Rlt_dec a b); try nra
              end; simpl); reflexivity.
  - destruct (Rtotal_order dt 0) as [Hd | [Hd | Hd]];
      destruct (Rtotal_order k 0) as [Hk | [Hk | Hk]];
      repeat (unfold signed_inf;
              match goal with
              | |- context [Rlt_dec ?a ?b] =>
                  destruct (Rlt_dec a b); try nra
              end; simpl); reflexivity.
  - reflexivity.
Qed.

Lemma rotate_scale (dt k : R) (p : Mesh) :
  rotate (Fin dt) (Fin k) p = rotate (Fin (k * dt)) (Fin 1) p.
Proof.
  unfold rotate.
  now rewrite (scale_exchange
                 (2 * Math_PI / (UserData.rotationPeriod (userData p) * 3600))
                 dt k).
Qed.

Lemma advanceAngle_scale (dt k : R) (p : Mesh) :
  advanceAngle (Fin dt) (Fin k) p = advanceAngle (Fin (k * dt)) (Fin 1) p.
Proof.
  unfold advanceAngle. cbv zeta.
  now rewrite (scale_exchange
                 (2 * Math_PI / (UserData.orbitalPeriod (userData p) * 86400))
                 dt k).
Qed.

Lemma updatePlanet_scale (dt k : R) (before after : list Mesh) (p : Mesh) :
  updatePlanet (Fin dt) (Fin k) before p after
  = updatePlanet (Fin (k * dt)) (Fin 1) before p after.
Proof.
  unfold updatePlanet. cbv zeta.
  rewrite (rotate_scale dt k p).
  rewrite (advanceAngle_scale dt k (rotate (Fin (k * dt)) (Fin 1) p)).
  reflexivity.
Qed.

(** X1: the time speed only scales time, rounding aside.  As real
    numbers [rate × dt × k] and [rate × (k × dt) × 1] are equal, so a
    frame of [dt] seconds at speed [k] leaves the bodies as a frame of
    [k × dt] seconds at speed 1 does, whatever the bodies are.  The
    doubles of the source round, and may overflow or underflow: the two
    products agree up to their rounding only. *)
Theorem X1_speed_scales_the_delta (dt k : R) (sys : PlanetSystem) :
  planets (updatePositions (Fin dt) (setTimeSpeed (Fin k) sys))
  = planets (updatePositions (Fin (k * dt)) (setTimeSpeed (Fin 1) sys)).
Proof.
  unfold updatePositions, setTimeSpeed. simpl.
  destruct (isPaused sys); simpl; [reflexivity |].
  apply forEach_ext. intros before p after. apply updatePlanet_scale.
Qed.


(** A body that is no satellite is updated without a look at the other
    bodies. *)
Lemma updatePlanet_alone (dt k : number) (before after : list Mesh)
    (p : Mesh) :
  UserData.isSatellite (userData p) = false ->
  updatePlanet dt k before p after = updatePlanet dt k [] p [].
Proof.
  intros Hsat. unfold updatePlanet.
  destruct (UserData.isStar (userData p)); [reflexivity |].
  rewrite rotate_userData, Hsat. reflexivity.
Qed.

Lemma add_add_Fin (a : number) (u v : R) :
  (a + Fin u + Fin v)%js = (a + Fin (u + v))%js.
Proof. destruct a; simpl; try reflexivity. f_equal. ring. Qed.

Lemma rotate_rotate (d1 d2 k : R) (p : Mesh) :
  nonzero (UserData.rotationPeriod (userData p)) ->
  rotate (Fin d2) (Fin k) (rotate (Fin d1) (Fin k) p)
  = rotate (Fin (d1 + d2)) (Fin k) p.
Proof.
  intros [rp [E Hrp]]. unfold rotate. simpl. rewrite E. simpl. js_dec.
  unfold with_rotation_y. simpl. rewrite add_add_Fin.
  do 3 f_equal. field. lra.
Qed.

Lemma advanceAngle_advanceAngle (d1 d2 k : R) (p : Mesh) :
  nonzero (UserData.orbitalPeriod (userData p)) ->
  advanceAngle (Fin d2) (Fin k) (advanceAngle (Fin d1) (Fin k) p)
  = advanceAngle (Fin (d1 + d2)) (Fin k) p.
Proof.
  intros [op [E Hop]]. unfold advanceAngle. simpl. rewrite E. simpl. js_dec.
  unfold with_userData, UserData.with_currentAngle. simpl.
  rewrite add_add_Fin. do 4 f_equal. field. lra.
Qed.

(** Two updates of a star or planet in a row are one update by the sum
    of the deltas. *)
Lemma updatePlanet_twice (d1 d2 k : R) (p : Mesh) :
  UserData.isSatellite (userData p) = false ->
  nonzero (UserData.rotationPeriod (userData p)) ->
  (UserData.isStar (userData p) = false ->
   nonzero (UserData.orbitalPeriod (userData p))) ->
  updatePlanet (Fin d2) (Fin k) [] (updatePlanet (Fin d1) (Fin k) [] p []) []
  = updatePlanet (Fin (d1 + d2)) (Fin k) [] p [].
Proof.
  intros Hsat Hrot Horb. unfold updatePlanet.
  destruct (UserData.isStar (userData p)) eqn:Hstar.
  - rewrite rotate_userData, Hstar. now apply rotate_rotate.
  - specialize (Horb eq_refl). destruct Hrot as [rp [Erp Hrp]].
    destruct Horb as [op [Eop Hop]].
    assert (Er : 2 * PI / (rp * 3600) * d1 * k
                 + 2 * PI / (rp * 3600) * d2 * k
                 = 2 * PI / (rp * 3600) * (d1 + d2) * k) by (field; lra).
    assert (Eo : 2 * PI / (op * 86400) * d1 * k * 86400
                 + 2 * PI / (op * 86400) * d2 * k * 86400
                 = 2 * PI / (op * 86400) * (d1 + d2) * k * 86400)
      by (field; lra).
    destruct p as [[id r op' rp' a st sat par dk] [px py pz] ry rad].
    simpl in *. subst. unfold rotate, advanceAngle. simpl. js_dec.
    unfold with_position, with_userData, with_rotation_y,
      UserData.with_currentAngle. simpl.
    rewrite !add_add_Fin, Er, Eo. reflexivity.
Qed.

Lemma updatePlanet_keeps_kind (dt k : number) (before after : list Mesh)
    (p : Mesh) :
  static (updatePlanet dt k before p after) = static p.
Proof.
  unfold updatePlanet.
  destruct (UserData.isStar (userData p)); [reflexivity |].
  rewrite rotate_userData.
  destruct (UserData.isSatellite (userData p)
            && truthy_string (UserData.parent (userData p)));
    [| reflexivity].
  destruct (UserData.parent (userData p)) as [parent |]; [| reflexivity].
  destruct (getPlanetById _ parent); reflexivity.
Qed.

(** X2: frames add up for stars and planets, rounding aside.  In a
    running system, the body at index [i], when it is no satellite and
    its periods are finite and not zero, is after two frames of [d1] and
    [d2] seconds what it is after one frame of [d1 + d2] seconds, as real
    numbers: rotation, angle and position do not depend on how the time
    is cut into frames.  The doubles of the source agree up to the
    rounding of each sum only. *)
Theorem X2_frames_add_up
    (d1 d2 k : R) (sys : PlanetSystem) (i : nat) (p : Mesh) :
  isPaused sys = false ->
  timeSpeed sys = Fin k ->
  nth_error (planets sys) i = Some p ->
  UserData.isSatellite (userData p) = false ->
  nonzero (UserData.rotationPeriod (userData p)) ->
  (UserData.isStar (userData p) = false ->
   nonzero (UserData.orbitalPeriod (userData p))) ->
  nth_error
    (planets (updatePositions (Fin d2) (updatePositions (Fin d1) sys))) i
  = nth_error (planets (updatePositions (Fin (d1 + d2)) sys)) i.
Proof.
  intros Hrun Hspeed Hnth Hsat Hrot Horb.
  destruct (updatePositions_nth (Fin d1) (Fin k) sys i p Hrun Hspeed Hnth)
    as [? [? [b1 [? [_ [_ [_ [_ H1]]]]]]]].
  destruct (updatePositions_nth (Fin (d1 + d2)) (Fin k) sys i p
              Hrun Hspeed Hnth)
    as [? [? [b3 [? [_ [_ [_ [_ H3]]]]]]]].
  destruct (updatePositions_flags (Fin d1) sys) as [Hrun1 Hspeed1].
  rewrite Hrun in Hrun1. rewrite Hspeed in Hspeed1.
  destruct (updatePositions_nth (Fin d2) (Fin k) _ i _ Hrun1 Hspeed1 H1)
    as [? [? [b2 [? [_ [_ [_ [_ H2]]]]]]]].
  rewrite H2, H3.
  rewrite (updatePlanet_alone _ _ b3) by exact Hsat.
  rewrite (updatePlanet_alone _ _ b1) by exact Hsat.
  rewrite (updatePlanet_alone _ _ b2).
  - now rewrite updatePlanet_twice.
  - pose proof (updatePlanet_keeps_kind (Fin d1) (Fin k) [] [] p) as Hs.
    unfold static in Hs. injection Hs as _ _ _ _ _ Hs' _ _.
    now rewrite Hs'.
Qed.

(** X2 at work: earth alone, frames of 1 and 2 seconds against one of 3
    seconds. *)
Lemma X2_frames_add_up_witness :
  nth_error
    (planets (updatePositions (Fin 2)
                (updatePositions (Fin 1) (Sample.earthAlone false)))) 0
  = nth_error
      (planets (updatePositions (Fin (1 + 2)) (Sample.earthAlone false))) 0.
Proof.
  apply (X2_frames_add_up 1 2 1 (Sample.earthAlone false) 0 Sample.earth);
    try reflexivity.
  - exists 24. split; [reflexivity | lra].
  - intros _. exists 365.25. split; [reflexivity | lra].
Defined.

End MoreFrames.

Section WhatStays.

Lemma forEach_static (dt k : number) (todo : list Mesh) :
  forall done,
    map static (forEach (updatePlanet dt k) done todo)
    = map static done ++ map static todo.
Proof.
  induction todo as [| p todo IH]; intros done; simpl.
  - now rewrite app_nil_r.
  - rewrite IH, map_app, <- app_assoc. simpl.
    now rewrite updatePlanet_keeps_kind.
Qed.

Lemma updatePositions_static (dt : number) (sys : PlanetSystem) :
  map static (planets (updatePositions dt sys)) = map static (planets sys).
Proof.
  unfold updatePositions. destruct (isPaused sys); [reflexivity |].
  simpl. apply (forEach_static dt (timeSpeed sys) (planets sys) []).
Qed.

(** X3: no frame changes what a body is.  After any number of frames, at
    any speeds and deltas, paused or not, the array holds the same number
    of bodies in the same order, each with its id, orbital radius,
    periods, kind flags, parent and sphere radius unchanged; a frame
    writes rotation, angle and position only. *)
Theorem X3_frames_keep_the_bodies
    (frames : list (number * number)) (sys : PlanetSystem) :
  map static (planets (ticksAtSpeeds frames sys)) = map static (planets sys)
  /\ length (planets (ticksAtSpeeds frames sys)) = length (planets sys).
Proof.
  assert (H : map static (planets (ticksAtSpeeds frames sys))
              = map static (planets sys)).
  { revert sys. unfold ticksAtSpeeds.
    induction frames as [| [k dt] frames IH]; intros sys; simpl.
    - reflexivity.
    - rewrite IH. now rewrite updatePositions_static. }
  split; [exact H |].
  apply (f_equal (@length _)) in H. now rewrite !length_map in H.
Qed.

Lemma star_frame (dt : number) (sys : PlanetSystem) (i : nat) (p : Mesh) :
  nth_error (planets sys) i = Some p ->
  UserData.isStar (userData p) = true ->
  exists p',
    nth_error (planets (updatePositions dt sys)) i = Some p' /\
    userData p' = userData p /\
    position p' = position p.
Proof.
  intros Hnth Hstar. destruct (isPaused sys) eqn:Hrun.
  - rewrite updatePositions_paused by exact Hrun. now exists p.
  - destruct (updatePositions_nth dt (timeSpeed sys) sys i p
                Hrun eq_refl Hnth)
      as [? [? [before [? [_ [_ [_ [_ Hres]]]]]]]].
    eexists. split; [exact Hres |].
    unfold updatePlanet. rewrite Hstar. split; reflexivity.
Qed.

(** X4: a star never moves.  After any number of frames, at any speeds
    and deltas, a body flagged as star is where it was, with the
    [currentAngle] it was created with: frames only spin it. *)
Theorem X4_a_star_stays_in_place
    (frames : list (number * number)) (sys : PlanetSystem) (i : nat)
    (p : Mesh) :
  nth_error (planets sys) i = Some p ->
  UserData.isStar (userData p) = true ->
  exists p',
    nth_error (planets (ticksAtSpeeds frames sys)) i = Some p' /\
    userData p' = userData p /\
    position p' = position p.
Proof.
  revert sys p. unfold ticksAtSpeeds.
  induction frames as [| [k dt] frames IH]; intros sys p Hnth Hstar; simpl.
  - now exists p.
  - destruct (star_frame dt (setTimeSpeed k sys) i p Hnth Hstar)
      as [p1 [H1 [Hu1 Hp1]]].
    destruct (IH _ p1 H1) as [p' [H' [Hu' Hp']]].
    + now rewrite Hu1.
    + exists p'. split; [exact H' |]. split; congruence.
Qed.


Lemma Fin_zero_add (a : number) : (Fin 0 + a)%js = a.
Proof. destruct a; simpl; try reflexivity. f_equal. lra. Qed.

Lemma updatePlanet_planet_branch (dt k : number) (before after : list Mesh)
    (p : Mesh) :
  UserData.isStar (userData p) = false ->
  UserData.isSatellite (userData p)
  && truthy_string (UserData.parent (userData p)) = false ->
  updatePlanet dt k before p after
  = let q := advanceAngle dt k (rotate dt k p) in
    with_position
      {| x := (UserData.orbitalRadius (userData q)
               * Math_cos (UserData.currentAngle (userData q)))%js;
         y := y (position q);
         z := (UserData.orbitalRadius (userData q)
               * Math_sin (UserData.currentAngle (userData q)))%js |}
      q.
Proof.
  intros Hstar Hbranch. unfold updatePlanet.
  rewrite Hstar, rotate_userData, Hbranch. reflexivity.
Qed.

(** X5: a planet stays on its circle.  In a running system every frame
    puts a body that is no star and no satellite with a parent (a planet,
    or a satellite whose descriptor names no parent) at
    [orbitalRadius × (cos, ·, sin)(currentAngle)] around the origin and
    leaves its height [y] as it was; for finite values its distance to
    the axis point [(0, y, 0)] is the absolute value of the orbital
    radius. *)
Theorem X5_planet_stays_on_its_circle
    (dt : number) (sys : PlanetSystem) (i : nat) (p : Mesh) :
  isPaused sys = false ->
  nth_error (planets sys) i = Some p ->
  UserData.isStar (userData p) = false ->
  UserData.isSatellite (userData p)
  && truthy_string (UserData.parent (userData p)) = false ->
  exists p',
    nth_error (planets (updatePositions dt sys)) i = Some p' /\
    x (position p')
    = (UserData.orbitalRadius (userData p)
       * Math_cos (UserData.currentAngle (userData p')))%js /\
    y (position p') = y (position p) /\
    z (position p')
    = (UserData.orbitalRadius (userData p)
       * Math_sin (UserData.currentAngle (userData p')))%js /\
    (forall r a h : R,
        UserData.orbitalRadius (userData p) = Fin r ->
        UserData.currentAngle (userData p') = Fin a ->
        y (position p) = Fin h ->
        distanceTo (position p') (vec3 0 h 0) = Fin (Rabs r)).
Proof.
  intros Hrun Hnth Hstar Hbranch.
  destruct (updatePositions_nth dt (timeSpeed sys) sys i p
              Hrun eq_refl Hnth)
    as [pre [post [before [rest [_ [_ [_ [_ Hres]]]]]]]].
  rewrite updatePlanet_planet_branch in Hres by assumption.
  cbv zeta in Hres.
  set (q := advanceAngle dt (timeSpeed sys) (rotate dt (timeSpeed sys) p))
    in Hres.
  eexists. split; [exact Hres |].
  split; [reflexivity |]. split; [reflexivity |]. split; [reflexivity |].
  intros r a h Hr Ha Hy. unfold distanceTo.
  change (UserData.currentAngle (userData q) = Fin a) in Ha.
  cbn [position with_position x y z].
  change (UserData.orbitalRadius (userData q))
    with (UserData.orbitalRadius (userData p)).
  change (position q) with (position p).
  rewrite Hr, Hy, Ha. simpl.
  assert (E : (r * cos a + - 0) * (r * cos a + - 0) + (h + - h) * (h + - h)
              + (r * sin a + - 0) * (r * sin a + - 0) = Rsqr r).
  { pose proof (sin2_cos2 a) as H. unfold Rsqr in *.
    transitivity (r * r * (sin a * sin a + cos a * cos a)); [ring |].
    rewrite H. ring. }
  rewrite E. destruct (Rlt_dec (Rsqr r) 0) as [Hneg | _].
  - exfalso. pose proof (Rle_0_sqr r). lra.
  - f_equal. apply sqrt_Rsqr_abs.
Qed.

Lemma stray_frame :
  planets (updatePositions 1 Scene.strayAlone)
  = [with_position (vec3 (5 * cos (PI / 2)) 0 (5 * sin (PI / 2)))
       (advanceAngle 1 1 (rotate 1 1 Scene.stray))].
Proof.
  unfold updatePositions, Scene.strayAlone. simpl.
  unfold updatePlanet. simpl. js_dec.
  rewrite quarter_turn. reflexivity.
Qed.

(** X5 at work: a satellite without parent, one frame of one second (a
    quarter of its four-day orbit). *)
Lemma X5_planet_stays_witness :
  exists p',
    nth_error (planets (updatePositions 1 Scene.strayAlone)) 0 = Some p' /\
    position p' = vec3 (5 * cos (PI / 2)) 0 (5 * sin (PI / 2)).
Proof.
  destruct (X5_planet_stays_on_its_circle 1 Scene.strayAlone 0 Scene.stray
              eq_refl eq_refl eq_refl eq_refl)
    as [p' [H1 _]].
  exists p'. split; [exact H1 |].
  rewrite stray_frame in H1. simpl in H1. injection H1 as <-. reflexivity.
Defined.

Lemma step_nonneg (P c dt k : R) :
  0 < P -> 0 < c -> 0 <= dt -> 0 <= k -> 0 <= 2 * PI / (P * c) * dt * k.
Proof.
  intros HP Hc Hdt Hk. pose proof PI_RGT_0 as Hpi.
  assert (Hinv : 0 < / (P * c)).
  { apply Rinv_0_lt_compat. now apply Rmult_lt_0_compat. }
  assert (Hrate : 0 <= 2 * PI / (P * c)).
  { unfold Rdiv. apply Rmult_le_pos; lra. }
  apply Rmult_le_pos; [apply Rmult_le_pos |]; assumption.
Qed.

Lemma updatePlanet_rotation (dt k : number) (before after : list Mesh)
    (p : Mesh) :
  rotation_y (updatePlanet dt k before p after)
  = rotation_y (rotate dt k p).
Proof.
  unfold updatePlanet.
  destruct (UserData.isStar (userData p)); [reflexivity |].
  rewrite rotate_userData.
  destruct (UserData.isSatellite (userData p)
            && truthy_string (UserData.parent (userData p)));
    [| reflexivity].
  destruct (UserData.parent (userData p)) as [parent |]; [| reflexivity].
  destruct (getPlanetById _ parent); reflexivity.
Qed.

Lemma updatePlanet_angle (dt k : number) (before after : list Mesh)
    (p : Mesh) :
  UserData.currentAngle (userData (updatePlanet dt k before p after))
  = UserData.currentAngle (userData p) \/
  UserData.currentAngle (userData (updatePlanet dt k before p after))
  = UserData.currentAngle (userData (advanceAngle dt k p)).
Proof.
  unfold updatePlanet.
  destruct (UserData.isStar (userData p)); [left; reflexivity |].
  rewrite rotate_userData.
  destruct (UserData.isSatellite (userData p)
            && truthy_string (UserData.parent (userData p)));
    [| right; reflexivity].
  destruct (UserData.parent (userData p)) as [parent |];
    [| left; reflexivity].
  destruct (getPlanetById _ parent); [right | left]; reflexivity.
Qed.

(** X6: bodies never turn back.  In a running system with a speed
    [k >= 0] (every slider position) and a delta [dt >= 0], a frame never
    decreases the rotation of a body with a positive rotation period, be
    it star, planet or satellite and whatever its orbital period; nor,
    independently, the [currentAngle] of a body with a positive orbital
    period, whatever its rotation period; and it leaves the
    [currentAngle] of a star as it is, whatever its periods. *)
Theorem X6_bodies_never_turn_back
    (dt k : R) (sys : PlanetSystem) (i : nat) (p : Mesh) :
  isPaused sys = false ->
  timeSpeed sys = Fin k ->
  0 <= k -> 0 <= dt ->
  nth_error (planets sys) i = Some p ->
  exists p',
    nth_error (planets (updatePositions (Fin dt) sys)) i = Some p' /\
    (forall Q r : R,
        UserData.rotationPeriod (userData p) = Fin Q -> 0 < Q ->
        rotation_y p = Fin r ->
        exists r', rotation_y p' = Fin r' /\ r <= r') /\
    (forall P a : R,
        UserData.orbitalPeriod (userData p) = Fin P -> 0 < P ->
        UserData.currentAngle (userData p) = Fin a ->
        exists a',
          UserData.currentAngle (userData p') = Fin a' /\ a <= a') /\
    (UserData.isStar (userData p) = true ->
     UserData.currentAngle (userData p')
     = UserData.currentAngle (userData p)).
Proof.
  intros Hrun Hspeed Hk Hdt Hnth.
  destruct (updatePositions_nth (Fin dt) (Fin k) sys i p Hrun Hspeed Hnth)
    as [pre [post [before [rest [_ [_ [_ [_ Hres]]]]]]]].
  eexists. split; [exact Hres |]. split; [| split].
  - intros Q r HQ HQpos Hr.
    pose proof (step_nonneg Q 3600 dt k HQpos ltac:(lra) Hdt Hk) as Hrot.
    rewrite updatePlanet_rotation.
    exists (r + 2 * PI / (Q * 3600) * dt * k). split; [| lra].
    unfold rotate. rewrite HQ, Hr. simpl. js_dec. reflexivity.
  - intros P a HP HPpos Ha.
    pose proof (step_nonneg P 86400 dt k HPpos ltac:(lra) Hdt Hk) as Horb.
    destruct (updatePlanet_angle (Fin dt) (Fin k) before post p)
      as [E | E]; rewrite E; clear E.
    + exists a. split; [exact Ha | lra].
    + exists (a + 2 * PI / (P * 86400) * dt * k * 86400). split; [| nra].
      unfold advanceAngle. simpl. rewrite HP, Ha. simpl. js_dec.
      reflexivity.
  - intros Hstar. unfold updatePlanet. rewrite Hstar. reflexivity.
Qed.

(** X6 at work: the sun, whose orbital period is 0, among earth and
    moon; one frame of two seconds at speed 1 does not turn its rotation
    back. *)
Lemma X6_never_turn_back_witness :
  exists p' r',
    nth_error (planets (updatePositions (Fin 2) Scene.solar)) 0 = Some p' /\
    rotation_y p' = Fin r' /\ 0 <= r'.
Proof.
  destruct (X6_bodies_never_turn_back 2 1 Scene.solar 0 Scene.sun
              eq_refl eq_refl ltac:(lra) ltac:(lra) eq_refl)
    as [p' [Hnth [Hrot _]]].
  destruct (Hrot 609.12 0 eq_refl ltac:(lra) eq_refl) as [r' [Hr Hle]].
  exists p', r'. repeat split; assumption.
Defined.

(** X4 at work: the sun in a system with earth and moon, two frames. *)
Lemma X4_a_star_stays_witness :
  exists p',
    nth_error
      (planets (ticksAtSpeeds [(Fin 1, Fin 1); (Fin 3, Fin 2)] Scene.solar))
      0 = Some p' /\
    userData p' = userData Scene.sun /\
    position p' = vec3 0 0 0.
Proof.
  exact (X4_a_star_stays_in_place [(Fin 1, Fin 1); (Fin 3, Fin 2)]
           Scene.solar 0 Scene.sun eq_refl eq_refl).
Defined.

End WhatStays.

(** ** Lookup and creation *)

Section LookupAndCreation.

(** X7: lookup by id returns the first match.  [getPlanetById] returns a
    body of the array that has the requested id and is preceded by no
    body with that id; it returns nothing exactly when no body has the
    id. *)
Theorem X7_lookup_returns_the_first_match (l : list Mesh) (id : string) :
  match getPlanetById l id with
  | Some p =>
      exists pre post,
        l = pre ++ p :: post /\
        UserData.id (userData p) = id /\
        ~ In id (ids pre)
  | None => ~ In id (ids l)
  end.
Proof.
  unfold getPlanetById. induction l as [| q l IH]; simpl.
  - tauto.
  - destruct (String.eqb_spec (UserData.id (userData q)) id) as [E | E].
    + exists [], l. simpl. tauto.
    + destruct (find _ l) as [p |].
      * destruct IH as [pre [post [Hl [Hid Hpre]]]].
        exists (q :: pre), post. simpl. rewrite Hl.
        split; [reflexivity |]. split; [exact Hid |]. tauto.
      * tauto.
Qed.

Lemma getPlanetById_snoc (l : list Mesh) (p : Mesh) (id : string) :
  getPlanetById (l ++ [p]) id
  = match getPlanetById l id with
    | Some q => Some q
    | None => if String.eqb (UserData.id (userData p)) id then Some p
              else None
    end.
Proof.
  unfold getPlanetById. induction l as [| q l IH]; simpl.
  - reflexivity.
  - destruct (String.eqb (UserData.id (userData q)) id);
      [reflexivity | exact IH].
Qed.

(** X8: creating and looking up.  After [createPlanet] the new body is
    found under its id unless an earlier body already has that id, which
    then keeps shadowing it; the lookup of every other id is as
    before. *)
Theorem X8_created_body_is_found_unless_shadowed
    (d : PlanetData.t) (u : R) (sys : PlanetSystem) (id : string) :
  let created := fst (createPlanet d u sys) in
  let sys' := snd (createPlanet d u sys) in
  UserData.id (userData created) = PlanetData.id d /\
  getPlanetById (planets sys') (PlanetData.id d)
  = match getPlanetById (planets sys) (PlanetData.id d) with
    | Some earlier => Some earlier
    | None => Some created
    end /\
  (id <> PlanetData.id d ->
   getPlanetById (planets sys') id = getPlanetById (planets sys) id).
Proof.
  intros created sys'.
  assert (Hid : UserData.id (userData created) = PlanetData.id d).
  { pose proof (createPlanet_stored d u sys) as H.
    unfold stored, declared in H. now injection H. }
  split; [exact Hid |].
  unfold sys'. rewrite createPlanet_planets. fold created.
  rewrite !getPlanetById_snoc, Hid. split.
  - now rewrite String.eqb_refl.
  - intros Hne. destruct (String.eqb_spec (PlanetData.id d) id) as [E | E].
    + exfalso. now apply Hne.
    + now destruct (getPlanetById (planets sys) id).
Qed.

Lemma createPlanet_asCreated (d : PlanetData.t) (u : R)
    (sys : PlanetSystem) :
  0 <= u < 1 -> asCreated (fst (createPlanet d u sys)).
Proof.
  intros [Hu0 Hu1]. pose proof PI_RGT_0 as Hpi.
  assert (Hangle : exists a : R,
             Fin (u * PI * 2) = Fin a /\ 0 <= a < 2 * PI).
  { exists (u * PI * 2). split; [reflexivity | nra]. }
  unfold asCreated, createPlanet. cbv zeta.
  destruct (String.eqb (PlanetData.type d) "star") eqn:Hstar;
    destruct (String.eqb (PlanetData.type d) "satellite") eqn:Hsat;
    simpl.
  - apply String.eqb_eq in Hstar. rewrite Hstar in Hsat. discriminate.
  - split; [exact Hangle |]. repeat split; discriminate.
  - split; [exact Hangle |]. repeat split.
    intros _. unfold or_else.
    destruct (truthy (PlanetData.orbital_radius_earth d)) eqn:E;
      [exact E |]. simpl. js_dec; reflexivity.
  - split; [exact Hangle |]. repeat split; discriminate.
Qed.

Lemma createPlanets_asCreated (data : list PlanetData.t)
    (random : nat -> R) :
  (forall n, 0 <= random n < 1) ->
  forall (first : nat) (sys : PlanetSystem),
    Forall asCreated (planets sys) ->
    Forall asCreated (planets (createPlanets data random first sys)).
Proof.
  intros Hrandom. induction data as [| d data IH]; intros first sys Hsys.
  - exact Hsys.
  - change (createPlanets (d :: data) random first sys)
      with (createPlanets data random (S first)
              (snd (createPlanet d (random first) sys))).
    apply IH. rewrite createPlanet_planets. apply Forall_app. split.
    + exact Hsys.
    + constructor; [| constructor].
      apply createPlanet_asCreated, Hrandom.
Qed.

(** X9: what loading leaves.  When every draw of [Math.random()] is in
    [[0, 1)], every body that [init] creates from a file has its
    [currentAngle] in [[0, 2π)], no rotation, height 0, and is never star
    and satellite at once; a satellite has an orbital radius that is
    neither 0 nor [NaN] (5 is used when the file gives none); stars and
    satellites are at the origin and planets on their circle at their
    angle. *)
Theorem X9_loaded_bodies_are_as_created
    (response1 : option (list PlanetData.t)) (data : list PlanetData.t)
    (random : nat -> R) :
  (forall n, 0 <= random n < 1) ->
  exists sys,
    init response1 (Some data) random = Resolved sys /\
    Forall asCreated (planets sys).
Proof.
  intros Hrandom. eexists. split; [reflexivity |].
  apply createPlanets_asCreated; [exact Hrandom | constructor].
Qed.

(** X9 at work: earth and moon loaded with every draw equal to 1/4. *)
Lemma X9_loaded_bodies_witness :
  exists sys,
    init None (Some [Sample.earthData; Sample.moonData]) (fun _ => 1 / 4)
    = Resolved sys /\
    Forall asCreated (planets sys).
Proof.
  apply (X9_loaded_bodies_are_as_created None
           [Sample.earthData; Sample.moonData] (fun _ => 1 / 4)).
  intros _. lra.
Defined.

End LookupAndCreation.

(** ** The easing curve and the camera path *)

Section CameraPath.

Lemma cube_le (u v : R) : u <= v -> u * u * u <= v * v * v.
Proof.
  intros H.
  assert (Hq : 0 <= v * v + u * v + u * u).
  { pose proof (Rle_0_sqr (v + u)). pose proof (Rle_0_sqr v).
    pose proof (Rle_0_sqr u). unfold Rsqr in *. nra. }
  assert (E : v * v * v - u * u * u = (v - u) * (v * v + u * v + u * u))
    by ring.
  assert (0 <= (v - u) * (v * v + u * v + u * u))
    by (apply Rmult_le_pos; lra).
  lra.
Qed.

Lemma easeInOutCubic_low (t : R) :
  t < 1 / 2 -> easeInOutCubic t = 4 * (t * t * t).
Proof. intros H. unfold easeInOutCubic. js_dec; ring. Qed.

Lemma easeInOutCubic_high (t : R) :
  1 / 2 <= t ->
  easeInOutCubic t = 1 - 4 * ((1 - t) * (1 - t) * (1 - t)).
Proof. intros H. unfold easeInOutCubic. js_dec; field. Qed.

Lemma easeInOutCubic_monotone (t1 t2 : R) :
  t1 <= t2 -> easeInOutCubic t1 <= easeInOutCubic t2.
Proof.
  intros H.
  destruct (Rlt_dec t1 (1 / 2)) as [H1 | H1];
    destruct (Rlt_dec t2 (1 / 2)) as [H2 | H2].
  - rewrite !easeInOutCubic_low by assumption.
    pose proof (cube_le t1 t2 H). lra.
  - rewrite easeInOutCubic_low, easeInOutCubic_high by lra.
    pose proof (cube_le t1 (1 / 2) ltac:(lra)).
    pose proof (cube_le (1 - t2) (1 / 2) ltac:(lra)). lra.
  - lra.
  - rewrite !easeInOutCubic_high by lra.
    pose proof (cube_le (1 - t2) (1 - t1) ltac:(lra)). lra.
Qed.

Lemma easeInOutCubic_zero : easeInOutCubic 0 = 0.
Proof. rewrite easeInOutCubic_low; lra. Qed.

Lemma easeInOutCubic_one : easeInOutCubic 1 = 1.
Proof. rewrite easeInOutCubic_high; lra. Qed.

Lemma easeInOutCubic_range (t : R) :
  0 <= t <= 1 -> 0 <= easeInOutCubic t <= 1.
Proof.
  intros [H0 H1].
  pose proof (easeInOutCubic_monotone 0 t H0) as Hlow.
  pose proof (easeInOutCubic_monotone t 1 H1) as Hhigh.
  rewrite easeInOutCubic_zero in Hlow. rewrite easeInOutCubic_one in Hhigh.
  split; assumption.
Qed.

(** X10: the easing curve is a proper progress curve.  On every finite
    progress the easing of [animate] is finite; it starts at 0, ends at
    1, never decreases and stays within [[0, 1]] on [[0, 1]].  Rounding
    aside it is symmetric about the midpoint: as real numbers, the eased
    value at [1 - t] is one minus the eased value at [t]; the doubles
    of the source agree on that up to their rounding only. *)
Theorem X10_easing_is_monotone_and_symmetric :
  eased (Fin 0) = Fin 0 /\
  eased (Fin 1) = Fin 1 /\
  (forall t1 t2 : R,
      t1 <= t2 ->
      exists e1 e2 : R,
        eased (Fin t1) = Fin e1 /\ eased (Fin t2) = Fin e2 /\ e1 <= e2) /\
  (forall t : R,
      0 <= t <= 1 -> exists e : R, eased (Fin t) = Fin e /\ 0 <= e <= 1) /\
  (forall t : R, eased (Fin (1 - t)) = (Fin 1 - eased (Fin t))%js).
Proof.
  split; [rewrite eased_Fin; f_equal; apply easeInOutCubic_zero |].
  split; [exact eased_one |].
  split.
  { intros t1 t2 H. exists (easeInOutCubic t1), (easeInOutCubic t2).
    rewrite !eased_Fin. repeat split; try reflexivity.
    now apply easeInOutCubic_monotone. }
  split.
  { intros t H. exists (easeInOutCubic t). rewrite eased_Fin.
    split; [reflexivity |]. now apply easeInOutCubic_range. }
  intros t. rewrite !eased_Fin. simpl. f_equal.
  destruct (Rlt_dec t (1 / 2)) as [H | H].
  - rewrite (easeInOutCubic_low t), (easeInOutCubic_high (1 - t)) by lra.
    ring.
  - destruct (Req_dec_T t (1 / 2)) as [-> | Hne].
    + rewrite !easeInOutCubic_high by lra. field.
    + rewrite (easeInOutCubic_high t), (easeInOutCubic_low (1 - t)) by lra.
      ring.
Qed.

Lemma lerp_between (a b e : R) :
  0 <= e <= 1 -> between a b (a + (b + - a) * e).
Proof.
  intros [H0 H1]. unfold between.
  destruct (Rle_dec a b) as [Hab | Hab]; [left | right]; nra.
Qed.

Lemma lerpVectors_between (v1 v2 : Vector3) (e : R) :
  finiteV v1 -> finiteV v2 -> 0 <= e <= 1 ->
  betweenV v1 v2 (lerpVectors v1 v2 (Fin e)).
Proof.
  intros [H1x [H1y H1z]] [H2x [H2y H2z]] He.
  destruct v1 as [x1 y1 z1], v2 as [x2 y2 z2]. simpl in *.
  apply finite_Fin in H1x as [ax ->], H1y as [ay ->], H1z as [az ->].
  apply finite_Fin in H2x as [bx ->], H2y as [by_ ->], H2z as [bz ->].
  unfold betweenV, lerpVectors. simpl.
  exists ax, ay, az, bx, by_, bz.
  do 3 eexists. repeat split; try reflexivity; now apply lerp_between.
Qed.

(** The progress of an animation with a positive duration, at a tick not
    before its start, is a real between 0 and 1. *)
Lemma progress_in_range (D s now : R) :
  0 < D -> s <= now ->
  exists t : R,
    Math_min ((Fin now - Fin s) / Fin D)%js 1 = Fin t /\ 0 <= t <= 1.
Proof.
  intros HD Hnow. simpl. js_dec. eexists. split; [reflexivity |].
  assert (0 <= (now + - s) / D).
  { apply Rmult_le_pos; [lra |]. apply Rlt_le, Rinv_0_lt_compat, HD. }
  split; [apply Rmin_glb; lra | apply Rmin_r].
Qed.

(** X11: an animation never extrapolates.  For a finite duration
    [D > 0], every tick at or after the start time interpolates with a
    weight [e] between 0 and 1 and hands the two interpolations to
    [update()], whose answer becomes the camera position and the
    look-target.  For finite start and end states each coordinate of the
    interpolated position lies between its start and end values, and
    likewise for the look-target, rounding aside: as real numbers
    [a + (b - a) × e] lies between [a] and [b]. *)
Theorem X11_animation_never_extrapolates
    (a : Animation) (c : Controls) (D s now : R) :
  durationMs a = Fin D ->
  startTime a = Fin s ->
  0 < D -> s <= now ->
  exists e : R,
    0 <= e <= 1 /\
    (camera_position (animate a (Fin now) c), target (animate a (Fin now) c))
    = orbitControls c (updates c)
        (lerpVectors (startCameraPos a) (targetCameraPos a) (Fin e),
         lerpVectors (startTarget a) (targetFocus a) (Fin e)) /\
    (finiteV (startCameraPos a) -> finiteV (targetCameraPos a) ->
     betweenV (startCameraPos a) (targetCameraPos a)
       (lerpVectors (startCameraPos a) (targetCameraPos a) (Fin e))) /\
    (finiteV (startTarget a) -> finiteV (targetFocus a) ->
     betweenV (startTarget a) (targetFocus a)
       (lerpVectors (startTarget a) (targetFocus a) (Fin e))).
Proof.
  intros HD Hs HDpos Hnow.
  pose proof (animate_camera_position a (Fin now) c) as Hplaced.
  cbv zeta in Hplaced. rewrite HD, Hs in Hplaced.
  destruct (progress_in_range D s now HDpos Hnow) as [t [Et Hrange]].
  rewrite Et, eased_Fin in Hplaced.
  pose proof (easeInOutCubic_range t Hrange) as He.
  exists (easeInOutCubic t). split; [exact He |].
  split; [exact Hplaced |].
  split; intros H1 H2; now apply lerpVectors_between.
Qed.

(** X11 at work: the two-second reset of the samples at its 500th
    millisecond. *)
Lemma X11_animation_never_extrapolates_witness :
  exists e : R,
    0 <= e <= 1 /\
    betweenV (vec3 10 5 0) (vec3 0 50 100)
      (lerpVectors (vec3 10 5 0) (vec3 0 50 100) (Fin e)) /\
    camera_position (animate Sample.forwards (Fin 500) Sample.busy)
    = vadd (lerpVectors (vec3 10 5 0) (vec3 0 50 100) (Fin e)) (vec3 1 0 0).
Proof.
  destruct (X11_animation_never_extrapolates Sample.forwards Sample.busy
              2000 0 500 eq_refl eq_refl ltac:(lra) ltac:(lra))
    as [e [He [Hplaced [Hposition _]]]].
  exists e. split; [exact He |].
  split; [exact (Hposition (conj I (conj I I)) (conj I (conj I I))) |].
  apply (f_equal fst) in Hplaced. exact Hplaced.
Defined.

End CameraPath.

(** ** Where a focus ends *)

Section FocusGeometry.

Lemma or_else_Fin (a : R) : (Fin a || 0)%js = Fin a.
Proof.
  unfold or_else. simpl. destruct (Req_dec_T a 0) as [-> | _]; reflexivity.
Qed.

(** The animation that [focusOnPlanet] requests for a planet of finite
    position, radius [rad] and angle [a]. *)
Lemma focusOnPlanet_animation (planet : Mesh) (D now : number)
    (c : Controls) (px py pz rad a : R) :
  isFocusing c = false ->
  position planet = vec3 px py pz ->
  radius planet = Fin rad ->
  UserData.currentAngle (userData planet) = Fin a ->
  fst (focusOnPlanet planet (Some D) now c)
  = {| camera_position := camera_position c;
       target := target c;
       isFocusing := true;
       requested :=
         requested c
         ++ [{| startCameraPos := camera_position c;
                targetCameraPos :=
                  vec3 (px + - cos a * Rmax (rad * 5) 10)
                       (py + Rmax (rad * 5) 10 * 0.5)
                       (pz + - sin a * Rmax (rad * 5) 10);
                startTarget := target c;
                targetFocus := vec3 px py pz;
                startTime := now;
                durationMs := D |}];
       orbitControls := orbitControls c;
       updates := updates c |}.
Proof.
  intros Hidle Hpos Hrad Hang. unfold focusOnPlanet.
  rewrite Hidle, Hpos, Hrad, Hang, or_else_Fin. reflexivity.
Qed.

Lemma focus_distance (c s d : R) :
  c * c + s * s = 1 -> 0 <= d ->
  (- c * d) * (- c * d) + (d * 0.5) * (d * 0.5) + (- s * d) * (- s * d)
  = 5 / 4 * (d * d).
Proof. intros H Hd. nra. Qed.

(** X13: where a focus ends.  A focus requested while no animation runs,
    on a planet with finite position, radius [rad] and angle, aims the
    look-target at the planet's position at that moment and the camera at
    a point [d / 2] above it, with [d = max(5 rad, 10)], whose distance to
    the planet's centre is [√(5/4) × d]: at least 10 and more than the
    radius of any planet with [rad >= 0]. *)
Theorem X13_focus_ends_clear_of_the_planet
    (planet : Mesh) (D now : number) (c : Controls) (px py pz rad a : R) :
  isFocusing c = false ->
  position planet = vec3 px py pz ->
  radius planet = Fin rad ->
  UserData.currentAngle (userData planet) = Fin a ->
  exists (anim : Animation) (dist : R),
    requested (fst (focusOnPlanet planet (Some D) now c))
    = requested c ++ [anim] /\
    targetFocus anim = position planet /\
    y (targetCameraPos anim) = Fin (py + Rmax (rad * 5) 10 * 0.5) /\
    distanceTo (targetCameraPos anim) (position planet) = Fin dist /\
    dist = sqrt (5 / 4) * Rmax (rad * 5) 10 /\
    10 <= dist /\
    (0 <= rad -> rad < dist).
Proof.
  intros Hidle Hpos Hrad Hang.
  rewrite (focusOnPlanet_animation planet D now c px py pz rad a)
    by assumption.
  set (d := Rmax (rad * 5) 10).
  assert (Hd10 : 10 <= d) by apply Rmax_r.
  assert (Hd5 : rad * 5 <= d) by apply Rmax_l.
  assert (Hroot : 1 <= sqrt (5 / 4)).
  { rewrite <- sqrt_1 at 1. apply sqrt_le_1; lra. }
  eexists. exists (sqrt (5 / 4) * d). simpl.
  split; [reflexivity |]. split; [now rewrite Hpos |].
  split; [reflexivity |]. split.
  - rewrite Hpos. unfold distanceTo. simpl.
    assert (E : (px + - cos a * d + - px) * (px + - cos a * d + - px)
                + (py + d * 0.5 + - py) * (py + d * 0.5 + - py)
                + (pz + - sin a * d + - pz) * (pz + - sin a * d + - pz)
                = 5 / 4 * (d * d)).
    { pose proof (sin2_cos2 a) as H. unfold Rsqr in H.
      transitivity ((- cos a * d) * (- cos a * d) + (d * 0.5) * (d * 0.5)
                    + (- sin a * d) * (- sin a * d)); [ring |].
      apply focus_distance; lra. }
    rewrite E. destruct (Rlt_dec (5 / 4 * (d * d)) 0) as [Hneg | _].
    + exfalso. nra.
    + f_equal. rewrite sqrt_mult by nra. f_equal.
      apply sqrt_square. lra.
  - split; [reflexivity |]. split; [nra |]. intros Hrad0. nra.
Qed.

(** X13 at work: a focus on the sample earth from the idle camera. *)
Lemma X13_focus_ends_witness :
  exists (anim : Animation) (dist : R),
    requested (fst (focusOnPlanet Sample.earth (Some (Fin 2000)) (Fin 0)
                      Sample.idle))
    = [anim] /\
    targetFocus anim = vec3 50 0 0 /\
    10 <= dist /\
    distanceTo (targetCameraPos anim) (vec3 50 0 0) = Fin dist.
Proof.
  destruct (X13_focus_ends_clear_of_the_planet Sample.earth (Fin 2000)
              (Fin 0) Sample.idle 50 0 0 1 0 eq_refl eq_refl eq_refl
              eq_refl)
    as [anim [dist [H1 [H2 [_ [H4 [_ [H6 _]]]]]]]].
  exists anim, dist. repeat split; assumption.
Defined.

End FocusGeometry.

(** ** The application: events *)

Section Events.

Lemma oneAnimation_focusOnPlanet (planet : Mesh) (d : option number)
    (now : number) (c : Controls) :
  oneAnimation c -> oneAnimation (fst (focusOnPlanet planet d now c)).
Proof.
  unfold oneAnimation, focusOnPlanet. intros H.
  destruct (isFocusing c) eqn:E; simpl.
  - now rewrite E.
  - rewrite H. simpl. eexists. reflexivity.
Qed.

Lemma oneAnimation_resetCamera (d : option number) (now : number)
    (c : Controls) :
  oneAnimation c -> oneAnimation (fst (resetCamera d now c)).
Proof.
  unfold oneAnimation, resetCamera. intros H.
  destruct (isFocusing c) eqn:E; simpl.
  - now rewrite E.
  - rewrite H. simpl. eexists. reflexivity.
Qed.

Lemma oneAnimation_update (c : Controls) :
  oneAnimation c -> oneAnimation (update c).
Proof. intros H. exact H. Qed.

Lemma oneAnimation_runFrame (time : number) (c : Controls) :
  oneAnimation c -> oneAnimation (runFrame time c).
Proof.
  unfold oneAnimation, runFrame. intros H.
  destruct (isFocusing c) eqn:E.
  - destruct H as [a Ha]. rewrite Ha. simpl. unfold animate. simpl.
    destruct (Math_min _ 1 <? 1)%js; simpl.
    + eexists. reflexivity.
    + reflexivity.
  - rewrite H. reflexivity.
Qed.

Lemma consistent_togglePlayPause (app : App) :
  consistent app -> consistent (togglePlayPause app).
Proof.
  intros [_ [Hd Hc]]. unfold consistent, togglePlayPause. simpl.
  repeat split; assumption.
Qed.

Lemma consistent_hideInfo (app : App) :
  consistent app -> consistent (hideInfo app).
Proof.
  intros [_ [_ Hc]]. unfold consistent, hideInfo. simpl.
  split; [reflexivity |]. split; [left; reflexivity | exact Hc].
Qed.

(** Whether it returns or throws, [showPlanetInfo] has paused the system
    and relabelled the button, and the panel is displayed only with an
    object current. *)
Lemma consistent_showPlanetInfo (object : Object3D) (app : App) :
  consistent app -> consistent (fst (showPlanetInfo object app)).
Proof.
  intros [_ [Hd Hc]]. unfold consistent, showPlanetInfo.
  destruct (panel object); simpl.
  - split; [reflexivity |]. split; [| exact Hc].
    right. split; [reflexivity | discriminate].
  - split; [reflexivity |]. split; [| exact Hc].
    destruct Hd as [Hd | [Hd _]]; [left; exact Hd |].
    right. split; [exact Hd | discriminate].
Qed.

Lemma showPlanetInfo_controls (object : Object3D) (app : App) :
  controls (fst (showPlanetInfo object app)) = controls app.
Proof. unfold showPlanetInfo. destruct (panel object); reflexivity. Qed.

Lemma consistent_select (object : Object3D) (now : number) (app : App) :
  consistent app -> consistent (fst (select object now app)).
Proof.
  intros H. pose proof (consistent_showPlanetInfo object app H) as Hshow.
  unfold select.
  destruct (showPlanetInfo object app) as [app1 [| error]];
    simpl in Hshow; [| destruct object; exact Hshow].
  destruct object as [planet | planet | planet]; simpl;
    [| exact Hshow | exact Hshow].
  destruct Hshow as [Hb [Hd Hc]]. unfold consistent. simpl.
  split; [exact Hb |]. split; [exact Hd |].
  now apply oneAnimation_focusOnPlanet.
Qed.

Lemma consistent_onKeydown (code : string) (now : number) (app : App) :
  consistent app -> consistent (onKeydown code now app).
Proof.
  intros H. unfold onKeydown.
  set (app1 := if String.eqb code "Space" then togglePlayPause app
               else app).
  assert (H1 : consistent app1).
  { unfold app1. destruct (String.eqb code "Space");
      [now apply consistent_togglePlayPause | exact H]. }
  set (selected := match planetMap code with
                   | Some id =>
                       match getPlanetById (planets (planetSystem app1)) id
                       with
                       | Some planet => select (planetMesh planet) now app1
                       | None => (app1, returns)
                       end
                   | None => (app1, returns)
                   end).
  assert (H2 : consistent (fst selected)).
  { unfold selected. destruct (planetMap code) as [id |]; [| exact H1].
    destruct (getPlanetById _ id);
      [now apply consistent_select | exact H1]. }
  destruct (snd selected); [| exact H2].
  destruct (String.eqb code "Escape");
    [now apply consistent_hideInfo | exact H2].
Qed.

Lemma consistent_step (app : App) (e : event) :
  consistent app -> consistent (step app e).
Proof.
  intros H. destruct e as [code now | hits now | | now | | v | | time dt];
    simpl.
  - now apply consistent_onKeydown.
  - unfold onMouseClick. destruct hits as [| object ?];
      [exact H | now apply consistent_select].
  - now apply consistent_togglePlayPause.
  - unfold resetView. apply consistent_hideInfo.
    destruct H as [Hb [Hd Hc]]. unfold consistent. simpl.
    repeat split; try assumption. now apply oneAnimation_resetCamera.
  - now apply consistent_hideInfo.
  - destruct H as [Hb [Hd Hc]]. unfold consistent, onSlider. simpl.
    repeat split; assumption.
  - destruct H as [Hb [Hd Hc]]. unfold consistent, onGesture. simpl.
    repeat split; assumption.
  - destruct H as [Hb [Hd Hc]]. unfold consistent, frame. simpl.
    rewrite (proj1 (updatePositions_flags dt (planetSystem app))).
    repeat split; try assumption.
    now apply oneAnimation_runFrame, oneAnimation_update.
Qed.

(** The bodies whose panel can be built. *)
Lemma updatePlanet_formats (dt k : number) (before after : list Mesh)
    (p : Mesh) :
  formats (userData (updatePlanet dt k before p after))
  = formats (userData p).
Proof.
  unfold updatePlanet.
  destruct (UserData.isStar (userData p)); [reflexivity |].
  rewrite rotate_userData.
  destruct (UserData.isSatellite (userData p)
            && truthy_string (UserData.parent (userData p)));
    [| reflexivity].
  destruct (UserData.parent (userData p)) as [parent |]; [| reflexivity].
  destruct (getPlanetById _ parent); reflexivity.
Qed.

Lemma forEach_formats (dt k : number) (todo : list Mesh) :
  forall done,
    map (fun p => formats (userData p)) (forEach (updatePlanet dt k) done todo)
    = map (fun p => formats (userData p)) done
      ++ map (fun p => formats (userData p)) todo.
Proof.
  induction todo as [| p todo IH]; intros done; simpl.
  - now rewrite app_nil_r.
  - rewrite IH, map_app, <- app_assoc. simpl.
    now rewrite updatePlanet_formats.
Qed.

Lemma updatePositions_formats (dt : number) (sys : PlanetSystem) :
  map (fun p => formats (userData p)) (planets (updatePositions dt sys))
  = map (fun p => formats (userData p)) (planets sys).
Proof.
  unfold updatePositions. destruct (isPaused sys); [reflexivity |].
  simpl. apply (forEach_formats dt (timeSpeed sys) (planets sys) []).
Qed.

Lemma allFormat_found (l : list Mesh) (id : string) (p : Mesh) :
  allFormat l -> getPlanetById l id = Some p -> formats (userData p) = true.
Proof.
  unfold allFormat, getPlanetById. intros Hall Hfind.
  apply find_some in Hfind as [Hin _].
  rewrite Forall_forall in Hall. apply Hall.
  apply in_map_iff. now exists p.
Qed.

Lemma showPlanetInfo_returns (object : Object3D) (app : App) :
  panel object = true ->
  showPlanetInfo object app
  = ({| planetSystem := setPaused true (planetSystem app);
        controls := controls app;
        ui := {| UI.isPaused := UI.isPaused (ui app);
                 UI.currentPlanet := Some object;
                 UI.display := "block";
                 UI.buttonText := "▶ Play" |} |},
     returns).
Proof. intros H. unfold showPlanetInfo. rewrite H. reflexivity. Qed.

Lemma select_returns (planet : Mesh) (now : number) (app : App) :
  formats (userData planet) = true ->
  select (planetMesh planet) now app
  = ({| planetSystem := setPaused true (planetSystem app);
        controls :=
          fst (focusOnPlanet planet (Some (Fin 2000)) now (controls app));
        ui := {| UI.isPaused := UI.isPaused (ui app);
                 UI.currentPlanet := Some (planetMesh planet);
                 UI.display := "block";
                 UI.buttonText := "▶ Play" |} |},
     returns).
Proof.
  intros H. unfold select.
  rewrite (showPlanetInfo_returns (planetMesh planet) app H). reflexivity.
Qed.

Lemma tidy_togglePlayPause (app : App) :
  tidy app -> tidy (togglePlayPause app).
Proof. intros H. exact H. Qed.

Lemma tidy_hideInfo (app : App) : tidy app -> tidy (hideInfo app).
Proof. intros [_ H]. split; [reflexivity | exact H]. Qed.

Lemma tidy_select (object : Object3D) (now : number) (app : App) :
  panel object = true -> tidy app -> tidy (fst (select object now app)).
Proof.
  intros Hpanel [_ H]. destruct object as [planet | planet | planet];
    try discriminate.
  rewrite (select_returns planet now app Hpanel).
  split; [reflexivity | exact H].
Qed.

Lemma tidy_onKeydown (code : string) (now : number) (app : App) :
  tidy app -> tidy (onKeydown code now app).
Proof.
  intros H. unfold onKeydown.
  set (app1 := if String.eqb code "Space" then togglePlayPause app
               else app).
  assert (H1 : tidy app1).
  { unfold app1. destruct (String.eqb code "Space");
      [now apply tidy_togglePlayPause | exact H]. }
  set (selected := match planetMap code with
                   | Some id =>
                       match getPlanetById (planets (planetSystem app1)) id
                       with
                       | Some planet => select (planetMesh planet) now app1
                       | None => (app1, returns)
                       end
                   | None => (app1, returns)
                   end).
  assert (H2 : tidy (fst selected)).
  { unfold selected. destruct (planetMap code) as [id |]; [| exact H1].
    destruct (getPlanetById _ id) as [planet |] eqn:Hfind; [| exact H1].
    apply tidy_select; [| exact H1].
    exact (allFormat_found _ id planet (proj2 H1) Hfind). }
  destruct (snd selected); [| exact H2].
  destruct (String.eqb code "Escape");
    [now apply tidy_hideInfo | exact H2].
Qed.

Lemma tidy_step (app : App) (e : event) :
  showable e -> tidy app -> tidy (step app e).
Proof.
  intros He H.
  destruct e as [code now | hits now | | now | | v | | time dt]; simpl.
  - now apply tidy_onKeydown.
  - unfold onMouseClick. destruct hits as [| object ?]; [exact H |].
    now apply tidy_select.
  - now apply tidy_togglePlayPause.
  - unfold resetView. apply tidy_hideInfo. exact H.
  - now apply tidy_hideInfo.
  - exact H.
  - exact H.
  - destruct H as [Hp Hall]. split; [exact Hp |].
    unfold allFormat, frame. simpl. now rewrite updatePositions_formats.
Qed.

(** X14: what the handlers keep in step.  From the state in which
    [init] starts the loop, whatever the camera and whatever
    [OrbitControls.update()] does, after every sequence of key presses,
    clicks (also on a label or on Saturn's ring, where
    [showPlanetInfo] throws), button presses, slider moves, gestures on
    the canvas and frames: the play/pause button reads "Play" exactly
    when the planet system is paused, the info panel is displayed only
    while an object is current, and the camera has at most one animation
    closure requested, which is there exactly when [isFocusing] is set.
    When every body has the numbers the panel formats and every click
    hits such a body first, [showPlanetInfo] never throws and the panel
    is displayed exactly when an object is current. *)
Theorem X14_handlers_keep_ui_and_system_in_step
    (sys : PlanetSystem) (camera : Vector3) (orbit : OrbitControls)
    (events : list event) :
  isPaused sys = false ->
  let final := run events (newApp sys camera orbit) in
  consistent final /\
  (allFormat (planets sys) -> Forall showable events -> panelInStep final).
Proof.
  intros Hrun final. split.
  - assert (H0 : consistent (newApp sys camera orbit)).
    { unfold consistent, newApp, oneAnimation. simpl. rewrite Hrun.
      split; [reflexivity |]. split; [left |]; reflexivity. }
    revert H0. unfold final, run. generalize (newApp sys camera orbit).
    induction events as [| e events IH]; intros app H; simpl.
    + exact H.
    + apply IH. now apply consistent_step.
  - intros Hall Hshow.
    assert (H0 : tidy (newApp sys camera orbit)).
    { split; [reflexivity | exact Hall]. }
    cut (tidy final); [intros [H _]; exact H |].
    revert H0. unfold final, run. generalize (newApp sys camera orbit).
    induction Hshow as [| e events He Hshow IH]; intros app H; simpl.
    + exact H.
    + apply IH. now apply tidy_step.
Qed.

(** X14 at work: sun, earth and moon; the key 3, a frame, a click that
    hits the label of the earth, the space bar, the reset button, a
    gesture and another frame. *)
Lemma X14_handlers_keep_in_step_witness :
  consistent
    (run [Keydown "Digit3" (Fin 0); Frame (Fin 16) (Fin 0.016);
          Click [labelSprite Sample.earth; planetMesh Sample.earth] (Fin 18);
          Keydown "Space" (Fin 20); ResetButton (Fin 30); Gesture;
          Frame (Fin 32) (Fin 0.016)]
       Scene.app).
Proof.
  exact (proj1 (X14_handlers_keep_ui_and_system_in_step Scene.solar
                  initialCameraPosition Sample.panning _ eq_refl)).
Defined.

Lemma planetMap_digit (code id : string) :
  planetMap code = Some id ->
  String.eqb code "Space" = false /\ String.eqb code "Escape" = false.
Proof.
  unfold planetMap. intros H.
  repeat match type of H with
         | (if String.eqb code ?s then _ else _) = _ =>
             destruct (String.eqb_spec code s) as [-> | _];
             [split; reflexivity |]
         end.
  discriminate.
Qed.

(** X15: keys that do nothing.  A key that is neither the space bar nor
    Escape and is no digit of a loaded planet (no digit at all, or the
    digit of a planet that is not in the system) leaves the whole
    application as it is. *)
Theorem X15_other_keys_change_nothing
    (code : string) (now : number) (app : App) :
  code <> "Space" ->
  code <> "Escape" ->
  match planetMap code with
  | Some id => getPlanetById (planets (planetSystem app)) id = None
  | None => True
  end ->
  onKeydown code now app = app.
Proof.
  intros Hs He Hmap. unfold onKeydown.
  destruct (String.eqb_spec code "Space"); [contradiction |].
  destruct (String.eqb_spec code "Escape"); [contradiction |].
  destruct (planetMap code) as [id |]; [| reflexivity].
  now rewrite Hmap.
Qed.

(** X15 at work: the key 4 while mars is not loaded. *)
Lemma X15_other_keys_witness :
  onKeydown "Digit4" (Fin 0) Scene.app = Scene.app.
Proof.
  apply (X15_other_keys_change_nothing "Digit4" (Fin 0) Scene.app);
    [discriminate | discriminate | reflexivity].
Defined.

End Events.

(** ** From a key press to the focused planet *)

Section SelectAndFocus.

Lemma pair_snd {A B : Type} (a : A) (b : B) (q : A * B) :
  (a, b) = q -> b = snd q.
Proof. intros <-. reflexivity. Qed.

Variable anim : Animation.
Variables D s : R.
Hypothesis HD : durationMs anim = Fin D.
Hypothesis Hs : startTime anim = Fin s.
Hypothesis HDpos : 0 < D.

Lemma progress_before_end (now : R) :
  now < s + D ->
  (Math_min ((Fin now - Fin s) / Fin D)%js 1 <? 1)%js = true.
Proof.
  intros H.
  assert (Hq : (now + - s) / D < 1).
  { apply (Rmult_lt_reg_r D); [exact HDpos |].
    unfold Rdiv. rewrite Rmult_assoc, Rinv_l by lra. lra. }
  assert (E : ((Fin now - Fin s) / Fin D)%js = Fin ((now + - s) / D)).
  { simpl. destruct (Req_dec_T D 0); [lra | reflexivity]. }
  rewrite E.
  change (Math_min (Fin ((now + - s) / D)) 1)
    with (Fin (Rmin ((now + - s) / D) 1)).
  rewrite Rmin_left by lra. apply lt_Fin_true. exact Hq.
Qed.

(** A frame before the end of the animation: the loop's [update()] and
    the closure's tick, which requests itself again. *)
Lemma frame_inFlight (now : R) (dt : number) (app : App) :
  now < s + D ->
  inFlight anim (controls app) ->
  inFlight anim (controls (frame (Fin now) dt app)) /\
  orbitControls (controls (frame (Fin now) dt app))
  = orbitControls (controls app) /\
  updates (controls (frame (Fin now) dt app))
  = (updates (controls app) + 2)%nat.
Proof.
  intros Hnow [Hf Hr]. unfold frame, runFrame. cbn [controls].
  change (requested (update (controls app))) with (requested (controls app)).
  rewrite Hr. cbn [fold_left]. unfold animate. rewrite HD, Hs.
  rewrite progress_before_end by exact Hnow. cbn.
  rewrite Hf. repeat split. now rewrite Nat.add_comm.
Qed.

(** The frame that ends the animation: the loop's [update()], and the
    closure's last tick, which hands the interpolations at weight 1 to
    [update()]. *)
Lemma frame_ends (now : R) (dt : number) (app : App) :
  s + D <= now ->
  inFlight anim (controls app) ->
  let c := controls (frame (Fin now) dt app) in
  atEase c /\
  (camera_position c, target c)
  = orbitControls (controls app) (updates (controls app) + 1)%nat
      (lerpVectors (startCameraPos anim) (targetCameraPos anim) (Fin 1),
       lerpVectors (startTarget anim) (targetFocus anim) (Fin 1)).
Proof.
  intros Hnow [Hf Hr]. unfold frame, runFrame. cbn [controls].
  change (requested (update (controls app))) with (requested (controls app)).
  rewrite Hr. cbn [fold_left].
  rewrite (animate_after_duration anim _ D s now HD Hs HDpos Hnow).
  cbn. rewrite Nat.add_comm. split; [split; reflexivity |].
  symmetry. apply surjective_pairing.
Qed.

(** While the system is paused and the animation has not ended, frames
    leave the bodies and the panel alone and keep the animation in
    flight; each calls [update()] twice. *)
Lemma frames_while_paused (frames : list (R * number)) :
  forall app : App,
    isPaused (planetSystem app) = true ->
    inFlight anim (controls app) ->
    Forall (fun f => fst f < s + D) frames ->
    let app' := run (framesAt frames) app in
    planetSystem app' = planetSystem app /\
    ui app' = ui app /\
    inFlight anim (controls app') /\
    orbitControls (controls app') = orbitControls (controls app) /\
    updates (controls app')
    = (updates (controls app) + 2 * length frames)%nat.
Proof.
  unfold run, framesAt.
  induction frames as [| [t dt] frames IH]; intros app Hp Hc Hall; simpl.
  - repeat split; try apply Hc. lia.
  - inversion Hall as [| f fs Ht Hrest]; subst. simpl in Ht.
    set (app1 := frame (Fin t) dt app).
    assert (H1 : planetSystem app1 = planetSystem app).
    { unfold app1, frame. simpl. now apply updatePositions_paused. }
    destruct (frame_inFlight t dt app Ht Hc) as [Hfly [Horbit Hcount]].
    fold app1 in Hfly, Horbit, Hcount.
    destruct (IH app1) as [Hsys [Hui [Hctl [Ho Hu]]]];
      [now rewrite H1 | exact Hfly | exact Hrest |].
    cbv zeta in Hsys, Hui, Hctl, Ho, Hu.
    rewrite Hsys, Hui, H1, Ho, Horbit, Hu, Hcount.
    repeat split; try apply Hctl. lia.
Qed.

End SelectAndFocus.

Section KeyToFocus.

(** X16: from a digit key to the focused planet.  While no animation
    runs, pressing the digit of a loaded planet that has the numbers the
    panel formats pauses the system, opens the panel for that planet and
    requests one animation [anim] towards the planet's position.  During
    the frames that follow, as long as they come before 2000 ms from the
    key press, the bodies stay where they are.  The first frame at or
    after 2000 ms ends the animation: its tick hands [update()] the
    interpolations at weight 1, and the camera position and the
    look-target are then what that call, number
    [updates + 2 × frames + 1], makes of them.  For finite values the
    look-target handed over is the position of the planet, rounding
    aside, and the planet is still there. *)
Theorem X16_digit_key_ends_looking_at_the_planet
    (code id : string) (planet : Mesh) (app : App)
    (frames : list (R * number)) (s tN : R) (dN : number) :
  planetMap code = Some id ->
  getPlanetById (planets (planetSystem app)) id = Some planet ->
  formats (userData planet) = true ->
  isFocusing (controls app) = false ->
  requested (controls app) = [] ->
  Forall (fun f => fst f < s + 2000) frames ->
  s + 2000 <= tN ->
  let pressed := onKeydown code (Fin s) app in
  let final := run (framesAt frames ++ [Frame (Fin tN) dN]) pressed in
  exists anim : Animation,
    requested (controls pressed) = [anim] /\
    startCameraPos anim = camera_position (controls app) /\
    startTarget anim = target (controls app) /\
    targetFocus anim = position planet /\
    isPaused (planetSystem final) = true /\
    planets (planetSystem final) = planets (planetSystem app) /\
    getPlanetById (planets (planetSystem final)) id = Some planet /\
    UI.currentPlanet (ui final) = Some (planetMesh planet) /\
    UI.display (ui final) = "block" /\
    isFocusing (controls final) = false /\
    requested (controls final) = [] /\
    (camera_position (controls final), target (controls final))
    = orbitControls (controls app)
        (updates (controls app) + 2 * length frames + 1)%nat
        (lerpVectors (camera_position (controls app)) (targetCameraPos anim)
           (Fin 1),
         lerpVectors (target (controls app)) (position planet) (Fin 1)) /\
    (finiteV (target (controls app)) -> finiteV (position planet) ->
     lerpVectors (target (controls app)) (position planet) (Fin 1)
     = position planet).
Proof.
  intros Hmap Hfind Hformats Hidle Hreq Hbefore Hlast pressed final.
  destruct (planetMap_digit code id Hmap) as [Hspace Hescape].
  destruct (focusOnPlanet_requests planet (Fin 2000) (Fin s) (controls app)
              Hidle) as [endPos Hfocus].
  rewrite Hreq, app_nil_l in Hfocus.
  set (anim :=
         {| startCameraPos := camera_position (controls app);
            targetCameraPos := endPos;
            startTarget := target (controls app);
            targetFocus := position planet;
            startTime := Fin s;
            durationMs := Fin 2000 |}) in Hfocus.
  assert (Hkey : pressed
                 = {| planetSystem := setPaused true (planetSystem app);
                      controls :=
                        fst (focusOnPlanet planet (Some (Fin 2000)) (Fin s)
                               (controls app));
                      ui := {| UI.isPaused := UI.isPaused (ui app);
                               UI.currentPlanet := Some (planetMesh planet);
                               UI.display := "block";
                               UI.buttonText := "▶ Play" |} |}).
  { unfold pressed, onKeydown.
    rewrite Hspace, Hmap, Hfind, (select_returns planet _ _ Hformats).
    cbn [fst snd]. rewrite Hescape. reflexivity. }
  rewrite Hfocus in Hkey.
  assert (Hfly : inFlight anim (controls pressed)).
  { rewrite Hkey. split; reflexivity. }
  set (mid := run (framesAt frames) pressed).
  destruct (frames_while_paused anim 2000 s eq_refl eq_refl ltac:(lra)
              frames pressed ltac:(rewrite Hkey; reflexivity) Hfly Hbefore)
    as [Hsys [Hui [Hmidfly [Horbit Hcount]]]].
  fold mid in Hsys, Hui, Hmidfly, Horbit, Hcount.
  destruct (frame_ends anim 2000 s eq_refl eq_refl ltac:(lra) tN dN mid
              Hlast Hmidfly) as [[Hease1 Hease2] Hplaced].
  assert (Hfinal : final = frame (Fin tN) dN mid).
  { unfold final, mid, run. rewrite fold_left_app. reflexivity. }
  assert (Hp : planetSystem (frame (Fin tN) dN mid)
               = setPaused true (planetSystem app)).
  { unfold frame. cbn [planetSystem]. rewrite Hsys, Hkey.
    now apply updatePositions_paused. }
  assert (Hu : ui (frame (Fin tN) dN mid) = ui pressed).
  { unfold frame. cbn [ui]. exact Hui. }
  exists anim. rewrite Hfinal, Hp, Hu.
  split; [rewrite Hkey; reflexivity |].
  split; [reflexivity |]. split; [reflexivity |]. split; [reflexivity |].
  split; [reflexivity |]. split; [reflexivity |].
  split; [exact Hfind |].
  split; [rewrite Hkey; reflexivity |].
  split; [rewrite Hkey; reflexivity |].
  split; [exact Hease1 |]. split; [exact Hease2 |].
  split.
  - rewrite Hplaced, Horbit, Hcount, Hkey. reflexivity.
  - apply lerpVectors_one.
Qed.

(** X16 at work: sun, earth and moon with a pan pending; the key 3 at
    time 0, a frame at 16 ms and a frame at 2016 ms, whose tick is the
    fourth call of [update()] after the constructor's: the look-target
    ends one unit beside the earth, where that call has put it. *)
Lemma X16_digit_key_witness :
  let final :=
    run (framesAt [(16, Fin 0.016)] ++ [Frame (Fin 2016) (Fin 0.016)])
      (onKeydown "Digit3" (Fin 0) Scene.app) in
  isPaused (planetSystem final) = true /\
  isFocusing (controls final) = false /\
  target (controls final)
  = vadd (lerpVectors (vadd (vec3 0 0 0) (vec3 1 0 0)) (vec3 50 0 0) (Fin 1))
      (vec3 1 0 0).
Proof.
  destruct (X16_digit_key_ends_looking_at_the_planet "Digit3" "earth"
              Sample.earth Scene.app [(16, Fin 0.016)] 0 2016 (Fin 0.016)
              eq_refl eq_refl eq_refl eq_refl eq_refl
              ltac:(repeat constructor; simpl; lra) ltac:(lra))
    as [anim [_ [_ [_ [_ [H1 [_ [_ [_ [_ [H2 [_ [H3 _]]]]]]]]]]]]].
  split; [exact H1 |]. split; [exact H2 |].
  exact (pair_snd _ _ _ H3).
Defined.

End KeyToFocus.

(** ** Orbit paths, sphere detail and pointer coordinates *)

Section Geometry.

Lemma orbitPoint_Fin (r : R) (i : nat) :
  orbitPoint (Fin r) i
  = vec3 (r * cos (INR i / 128 * PI * 2))%R 0
      (r * sin (INR i / 128 * PI * 2))%R.
Proof.
  unfold orbitPoint. simpl.
  destruct (Req_dec_T 128 0); [lra | reflexivity].
Qed.

Lemma INR_128 : INR 128 = 128.
Proof. rewrite INR_IZR_INZ. reflexivity. Qed.

Lemma circle_distance (r a : R) :
  distanceTo (vec3 (r * cos a)%R 0 (r * sin a)%R) (vec3 0 0 0)
  = Fin (Rabs r).
Proof.
  unfold distanceTo. simpl.
  assert (E : (r * cos a + - 0) * (r * cos a + - 0) + (0 + - 0) * (0 + - 0)
              + (r * sin a + - 0) * (r * sin a + - 0) = Rsqr r).
  { pose proof (sin2_cos2 a) as H. unfold Rsqr in *.
    transitivity (r * r * (sin a * sin a + cos a * cos a)); [ring |].
    rewrite H. ring. }
  rewrite E. destruct (Rlt_dec (Rsqr r) 0) as [Hneg | _].
  - exfalso. pose proof (Rle_0_sqr r). lra.
  - f_equal. apply sqrt_Rsqr_abs.
Qed.

Lemma orbit_path_points (r : R) (v : Vector3) :
  In v (createOrbitPath (Fin r)) ->
  y v = Fin 0 /\ distanceTo v (vec3 0 0 0) = Fin (Rabs r).
Proof.
  unfold createOrbitPath. intros Hv.
  apply in_map_iff in Hv as [i [<- _]].
  rewrite orbitPoint_Fin. split; [reflexivity | apply circle_distance].
Qed.

(** X17: an orbit path is a closed circle, rounding aside.  For a finite
    radius [r], [createOrbitPath] yields 129 points, all in the plane
    [y = 0], and starts at [(r, 0, 0)].  As real numbers every point is
    at distance [|r|] from the origin and the last point, at the angle
    [2π], is the first again, so the line closes; the doubles of the
    source compute [r cos(2π)] and [r sin(2π)] there and meet the first
    point up to their rounding only. *)
Theorem X17_orbit_path_is_a_closed_circle (r : R) :
  length (createOrbitPath (Fin r)) = 129%nat /\
  (forall v, In v (createOrbitPath (Fin r)) ->
             y v = Fin 0 /\ distanceTo v (vec3 0 0 0) = Fin (Rabs r)) /\
  nth_error (createOrbitPath (Fin r)) 0 = Some (vec3 r 0 0) /\
  nth_error (createOrbitPath (Fin r)) 128 = Some (vec3 r 0 0).
Proof.
  split; [unfold createOrbitPath; now rewrite length_map, length_seq |].
  split; [exact (orbit_path_points r) |].
  unfold createOrbitPath. split.
  - rewrite nth_error_map, nth_error_seq. simpl option_map.
    rewrite orbitPoint_Fin. simpl INR.
    replace (0 / 128 * PI * 2) with 0 by lra.
    rewrite cos_0, sin_0. f_equal. f_equal; apply f_equal; lra.
  - rewrite nth_error_map, nth_error_seq.
    change (Nat.ltb 128 (128 + 1)) with true. cbv iota.
    change (option_map (orbitPoint (Fin r)) (Some (0 + 128)%nat))
      with (Some (orbitPoint (Fin r) 128)).
    rewrite orbitPoint_Fin, INR_128.
    replace (128 / 128 * PI * 2) with (2 * PI) by lra.
    rewrite cos_2PI, sin_2PI. f_equal. f_equal; apply f_equal; lra.
Qed.

(** X18: a planet starts on its drawn orbit.  For a descriptor that is
    neither star nor satellite, with a finite [orbital_radius_au = A > 0],
    [createPlanet] draws one orbit path, and every point of that path is
    as far from the origin as the new planet is: [50 × A]. *)
Theorem X18_planet_starts_on_its_drawn_orbit
    (d : PlanetData.t) (u A : R) (sys : PlanetSystem)
    (orbits : list (list Vector3)) :
  String.eqb (PlanetData.type d) "star" = false ->
  String.eqb (PlanetData.type d) "satellite" = false ->
  PlanetData.orbital_radius_au d = Fin A ->
  0 < A ->
  let planet := fst (createPlanet d u sys) in
  exists path,
    createPlanetOrbit d planet orbits = orbits ++ [path] /\
    distanceTo (position planet) (vec3 0 0 0) = Fin (A * 50) /\
    (forall v, In v path -> distanceTo v (vec3 0 0 0) = Fin (A * 50)).
Proof.
  intros Hstar Hsat Hau HA planet.
  assert (Habs : Rabs (A * 50) = A * 50) by (apply Rabs_pos_eq; lra).
  assert (Hr : UserData.orbitalRadius (userData planet) = Fin (A * 50)).
  { unfold planet, createPlanet. rewrite Hstar, Hsat, Hau. reflexivity. }
  assert (Hp : position planet
               = vec3 (A * 50 * cos (u * PI * 2))%R 0
                   (A * 50 * sin (u * PI * 2))%R).
  { unfold planet, createPlanet. rewrite Hstar, Hsat, Hau. reflexivity. }
  exists (createOrbitPath (Fin (A * 50))). split.
  - unfold createPlanetOrbit. rewrite Hstar, Hsat, Hau, Hr.
    rewrite lt_Fin_true by exact HA. reflexivity.
  - split.
    + rewrite Hp, circle_distance. now rewrite Habs.
    + intros v Hv.
      destruct (orbit_path_points (A * 50) v Hv) as [_ Hdist].
      now rewrite Hdist, Habs.
Qed.

(** X18 at work: the sample earth, one astronomical unit from the sun. *)
Lemma X18_planet_starts_witness :
  exists path,
    createPlanetOrbit Sample.earthData
      (fst (createPlanet Sample.earthData 0 newPlanetSystem)) []
    = [path] /\
    (forall v, In v path -> distanceTo v (vec3 0 0 0) = Fin (1 * 50)).
Proof.
  destruct (X18_planet_starts_on_its_drawn_orbit Sample.earthData 0 1
              newPlanetSystem [] eq_refl eq_refl eq_refl ltac:(lra))
    as [path [H1 [_ H3]]].
  exists path. split; assumption.
Defined.

(** X19: the sphere detail is bounded.  The segment count that
    [createPlanet] passes to the sphere geometry is an integer between 16
    and 64 for every [relative_scale] that is a number, finite or
    infinite; for a missing [relative_scale] it is [NaN]. *)
Theorem X19_sphere_detail_is_between_16_and_64 (d : PlanetData.t) :
  match PlanetData.relative_scale d with
  | NaN => segments d = NaN
  | _ => exists n : Z, segments d = Fin (IZR n) /\ (16 <= n <= 64)%Z
  end.
Proof.
  unfold segments. destruct (PlanetData.relative_scale d) as [s | | |].
  - simpl. set (k := Int_part (s * 16)).
    destruct (Z.le_gt_cases k 16) as [Hlow | Hlow].
    + exists 16%Z. split; [| lia].
      apply IZR_le in Hlow. f_equal.
      rewrite Rmin_right by lra. now apply Rmax_left.
    + destruct (Z.le_gt_cases k 64) as [Hhigh | Hhigh].
      * exists k. split; [| lia].
        apply IZR_le in Hhigh. apply IZR_lt in Hlow. f_equal.
        rewrite Rmin_right by lra. apply Rmax_right. lra.
      * exists 64%Z. split; [| lia].
        apply IZR_lt in Hhigh. f_equal.
        rewrite Rmin_left by lra. apply Rmax_right. lra.
  - exists 64%Z. split; [| lia]. simpl. unfold signed_inf. js_dec.
    f_equal. apply Rmax_right. lra.
  - exists 16%Z. split; [| lia]. simpl. unfold signed_inf. js_dec.
    reflexivity.
  - reflexivity.
Qed.

(** X20: pointer coordinates stay in the unit square.  For a window of
    positive finite size and a pointer inside it, the normalized device
    coordinates that the mouse and touch handlers compute lie between -1
    and 1; the top-left corner maps to [(-1, 1)], the bottom-right one to
    [(1, -1)] and the centre to [(0, 0)]. *)
Theorem X20_pointer_coordinates_stay_in_range
    (clientX clientY innerWidth innerHeight : R) :
  0 < innerWidth -> 0 < innerHeight ->
  0 <= clientX <= innerWidth ->
  0 <= clientY <= innerHeight ->
  (exists nx ny : R,
      pointerNDC (Fin clientX) (Fin clientY) (Fin innerWidth)
        (Fin innerHeight)
      = (Fin nx, Fin ny) /\
      -1 <= nx <= 1 /\ -1 <= ny <= 1) /\
  pointerNDC (Fin 0) (Fin 0) (Fin innerWidth) (Fin innerHeight)
  = (Fin (-1), Fin 1) /\
  pointerNDC (Fin innerWidth) (Fin innerHeight) (Fin innerWidth)
    (Fin innerHeight)
  = (Fin 1, Fin (-1)) /\
  pointerNDC (Fin (innerWidth / 2)) (Fin (innerHeight / 2)) (Fin innerWidth)
    (Fin innerHeight)
  = (Fin 0, Fin 0).
Proof.
  intros HW HH [Hx0 Hx1] [Hy0 Hy1].
  assert (Hunit : forall v w : R, 0 < w -> 0 <= v <= w -> 0 <= v / w <= 1).
  { intros v w Hw [Hv0 Hv1].
    assert (0 < / w) by now apply Rinv_0_lt_compat.
    split.
    - apply Rmult_le_pos; lra.
    - apply (Rmult_le_reg_r w); [exact Hw |].
      unfold Rdiv. rewrite Rmult_assoc, Rinv_l by lra. lra. }
  pose proof (Hunit clientX innerWidth HW (conj Hx0 Hx1)) as Hqx.
  pose proof (Hunit clientY innerHeight HH (conj Hy0 Hy1)) as Hqy.
  unfold pointerNDC. simpl.
  destruct (Req_dec_T innerWidth 0) as [E | _]; [lra |].
  destruct (Req_dec_T innerHeight 0) as [E | _]; [lra |].
  simpl. split.
  { do 2 eexists. split; [reflexivity |]. lra. }
  split; [apply f_equal2; apply f_equal; field; lra |].
  split; apply f_equal2; apply f_equal; field; lra.
Qed.

(** X20 at work: a pointer at (200, 150) in a window of 800 by 600. *)
Lemma X20_pointer_coordinates_witness :
  exists nx ny : R,
    pointerNDC (Fin 200) (Fin 150) (Fin 800) (Fin 600) = (Fin nx, Fin ny) /\
    -1 <= nx <= 1 /\ -1 <= ny <= 1.
Proof.
  exact (proj1 (X20_pointer_coordinates_stay_in_range 200 150 800 600
                  ltac:(lra) ltac:(lra) ltac:(lra) ltac:(lra))).
Defined.

End Geometry.
